(** * Wiki core: a shallow embedding of [wiki/core.py]

    The development follows the layout of the Python module: the string
    helpers of the standard library that the module calls, [clean_url],
    the [wikilink] post-processor with the pattern matcher it needs, the
    [Processor] pipeline, [os.path] and a file system, the [History]
    store, [Page] and the [Wiki] repository.  The properties come after
    the definitions.

    Python [str] values are modelled by [string]; a character is a code
    point below 256, so the character classes below ([str.isspace],
    [str.lower]) are the ones Python uses on that range.  Methods that
    change an object or the disk are functions on an explicit state, and
    an exception is a result of its own.  What the module takes from
    other libraries (the Markdown renderer, [url_for], the JSON codec,
    the printing of floats and dates) is a parameter, class [Externals];
    the platform of [os.path] is a parameter too, class [Flavour]. *)

From Stdlib Require Import ZArith Ascii String List Lia Bool DecimalString.
From stdpp Require Import gmap strings list fin_maps sorting.

Local Open Scope string_scope.
#[local] Arguments String.append : simpl nomatch.

(** ** Python [str] primitives *)

Module PyStr.

Definition code (c : ascii) : N := N_of_ascii c.

(** [str.isspace] on one character: TAB..CR, FS..US, SPACE, NEL, NBSP. *)
Definition is_space (c : ascii) : bool :=
  let n := code c in
  ((9 <=? n) && (n <=? 13) || (28 <=? n) && (n <=? 32)
   || (n =? 133) || (n =? 160))%N.

(** [str.lower] on one character: A..Z and the cased Latin-1 letters. *)
Definition lower_char (c : ascii) : ascii :=
  let n := code c in
  if ((65 <=? n) && (n <=? 90)
      || (192 <=? n) && (n <=? 222) && negb (n =? 215))%N
  then ascii_of_N (n + 32) else c.

Fixpoint lower (s : string) : string :=
  match s with
  | "" => ""
  | String c s' => String (lower_char c) (lower s')
  end.

Fixpoint str_forall (p : ascii -> bool) (s : string) : bool :=
  match s with
  | "" => true
  | String c s' => p c && str_forall p s'
  end.

Fixpoint last_char (s : string) : option ascii :=
  match s with
  | "" => None
  | String c s' => match last_char s' with None => Some c | r => r end
  end.

(** [s.startswith(p)] *)
Definition startswith (p s : string) : bool := String.prefix p s.
#[global] Arguments startswith : simpl never.

(** [s.lstrip()], [s.rstrip()] and [s.strip()] with no argument. *)
Fixpoint lstrip (s : string) : string :=
  match s with
  | "" => ""
  | String c s' => if is_space c then lstrip s' else s
  end.

Fixpoint rstrip (s : string) : string :=
  match s with
  | "" => ""
  | String c s' =>
      match rstrip s' with
      | "" => if is_space c then "" else String c ""
      | r => String c r
      end
  end.

Definition strip (s : string) : string := rstrip (lstrip s).

(** [s.replace(old, new)] for a non-empty [old]: the occurrences of [old]
    are found left to right and do not overlap.  [skip] counts the
    characters of the current occurrence that are still to be dropped. *)
Fixpoint replace_go (old new : string) (skip : nat) (s : string) : string :=
  match s with
  | "" => ""
  | String c s' =>
      match skip with
      | S k => replace_go old new k s'
      | O =>
          if startswith old s
          then new ++ replace_go old new (String.length old - 1) s'
          else String c (replace_go old new 0 s')
      end
  end.

Definition replace (old new s : string) : string := replace_go old new 0 s.

(** [s.find(sep)] and the two halves around the first occurrence, as
    [s.split(sep, 1)] and [s.partition(sep)] compute them; [None] when
    [sep] does not occur. *)
Fixpoint drop (n : nat) (s : string) : string :=
  match n, s with
  | S k, String _ s' => drop k s'
  | _, _ => s
  end.

Fixpoint cut (sep s : string) : option (string * string) :=
  if startswith sep s then Some ("", drop (String.length sep) s)
  else
    match s with
    | "" => None
    | String c s' =>
        match cut sep s' with
        | Some (a, b) => Some (String c a, b)
        | None => None
        end
    end.

(** [sep in s] *)
Definition contains (sep s : string) : bool :=
  match cut sep s with Some _ => true | None => false end.

(** [s.split(sep)] for a non-empty [sep]; the recursion is on the text,
    [skip] as in [replace_go], [acc] is the piece being read (reversed). *)
Fixpoint rev_append (acc s : string) : string :=
  match acc with
  | "" => s
  | String c acc' => rev_append acc' (String c s)
  end.

Fixpoint split_go (sep : string) (skip : nat) (acc s : string) : list string :=
  match s with
  | "" => [rev_append acc ""]
  | String c s' =>
      match skip with
      | S k => split_go sep k acc s'
      | O =>
          if startswith sep s
          then rev_append acc "" :: split_go sep (String.length sep - 1) "" s'
          else split_go sep 0 (String c acc) s'
      end
  end.

Definition split (sep s : string) : list string := split_go sep 0 "" s.

(** [s.split()] with no argument: the maximal runs of non-blank
    characters. *)
Fixpoint words_go (acc s : string) : list string :=
  match s with
  | "" => match acc with "" => [] | _ => [rev_append acc ""] end
  | String c s' =>
      if is_space c
      then match acc with
           | "" => words_go "" s'
           | _ => rev_append acc "" :: words_go "" s'
           end
      else words_go (String c acc) s'
  end.

Definition words (s : string) : list string := words_go "" s.

(** [sep.join(l)] *)
Fixpoint join (sep : string) (l : list string) : string :=
  match l with
  | [] => ""
  | [x] => x
  | x :: l' => x ++ sep ++ join sep l'
  end.

(** [list(s)]: the characters of [s], each as a string of length one. *)
Fixpoint chars (s : string) : list string :=
  match s with
  | "" => []
  | String c s' => String c "" :: chars s'
  end.

(** [re.sub('[ ]{2,}', ' ', s)]: every maximal run of two or more spaces
    becomes one space.  [in_run] is entered on the second space of a run
    and emits the replacement when the run ends. *)
Fixpoint sub_space_runs (s : string) : string :=
  match s with
  | "" => ""
  | String c s' =>
      if Ascii.eqb c " " && startswith " " s'
      then in_run s'
      else String c (sub_space_runs s')
  end
with in_run (s : string) : string :=
  match s with
  | "" => " "
  | String c s' =>
      if Ascii.eqb c " " then in_run s'
      else String " " (String c (sub_space_runs s'))
  end.

End PyStr.

Import PyStr.

(** ** [clean_url] *)

(** In Rocq a string literal has no escapes: the Python literal ['\\\\']
    (two backslashes) is ["\\"], and ['\\'] (one backslash) is ["\"]. *)
Definition clean_url (url : string) : string :=
  let url := strip (sub_space_runs url) in
  let url := replace " " "_" (lower url) in
  let url := replace "\" "/" (replace "\\" "/" url) in
  url.

(** ** Exceptions and results *)

Inductive exn :=
| ValueError (msg : string)
| KeyError (key : string)
| IndexError
| TypeError
| AttributeError (name : string)
| ZeroDivisionError
| OverflowError
| RuntimeError (msg : string)
| ReError
| JSONDecodeError
| FileNotFoundError (path : string)
| FileExistsError (path : string)
| IsADirectoryError (path : string)
| NotADirectoryError (path : string).

Inductive result (A : Type) :=
| Ok (a : A)
| Raise (e : exn).
Arguments Ok {A} a.
Arguments Raise {A} e.

Definition rbind {A B} (r : result A) (k : A -> result B) : result B :=
  match r with
  | Ok a => k a
  | Raise e => Raise e
  end.

#[global] Instance result_ret : MRet result := @Ok.
#[global] Instance result_bind : MBind result :=
  fun A B (k : A -> result B) (r : result A) => rbind r k.

Definition is_ok {A} (r : result A) : bool :=
  match r with
  | Ok _ => true
  | Raise _ => false
  end.

(** A loop whose body may raise: [for x in l: acc = f(acc, x)]. *)
Fixpoint rfold {A B} (f : A -> B -> result A) (acc : A) (l : list B)
  : result A :=
  match l with
  | [] => Ok acc
  | x :: l' => rbind (f acc x) (fun acc' => rfold f acc' l')
  end.

(** ** [int(str)] and [str(int)] *)

Module PyInt.

Definition digit (c : ascii) : option Z :=
  let n := code c in
  if ((48 <=? n) && (n <=? 57))%N then Some (Z.of_N n - 48)%Z else None.

(** The digits of a literal after its sign: at least one digit, single
    underscores allowed between digits.  [acc] is the value read so far,
    [prev] tells whether the previous character was a digit. *)
Fixpoint digits (acc : Z) (prev : bool) (s : string) : option Z :=
  match s with
  | "" => if prev then Some acc else None
  | String c s' =>
      match digit c with
      | Some d => digits (10 * acc + d)%Z true s'
      | None =>
          if Ascii.eqb c "_" && prev
          then match s' with
               | String c' _ =>
                   match digit c' with
                   | Some _ => digits acc false s'
                   | None => None
                   end
               | "" => None
               end
          else None
      end
  end.

(** [int(s)]: surrounding blanks are ignored, then an optional sign and a
    decimal literal; [None] stands for [ValueError]. *)
Definition parse (s : string) : option Z :=
  match strip s with
  | String "-" s' => Z.opp <$> digits 0 false s'
  | String "+" s' => digits 0 false s'
  | s' => digits 0 false s'
  end.

(** [str(n)] for an [int]. *)
Definition to_str (n : Z) : string := NilZero.string_of_int (Z.to_int n).

End PyInt.

(** ** A backtracking matcher for the patterns the module compiles *)

Module Re.

(** The fragment of [re] syntax the module's patterns use.  A quantifier
    is applied to a character class only. *)
Inductive regex :=
| Lit (s : string)                              (* literal text *)
| Cls (p : ascii -> bool)                       (* one character of a class *)
| Rep (lazy : bool) (min : nat) (p : ascii -> bool)  (* x{min,} or x{min,}? *)
| Seq (r1 r2 : regex)
| Opt (r : regex)                               (* r? *)
| Grp (n : nat) (r : regex)                     (* capturing group n *)
| NotBehind (s : string).                       (* (?<!s) *)

Infix ";;;" := Seq (at level 62, right associativity).

Record mstate := MState { pos : nat; caps : list (nat * string) }.

Definition advance (st : mstate) (n : nat) : mstate :=
  MState (pos st + n) (caps st).

Definition set_cap (n : nat) (s : string) (st : mstate) : mstate :=
  MState (pos st) ((n, s) :: caps st).

(** [m.group(n)], with the empty string for a group that took no part. *)
Fixpoint group_of (l : list (nat * string)) (n : nat) : string :=
  match l with
  | [] => ""
  | (k, s) :: l' => if Nat.eqb k n then s else group_of l' n
  end.

Fixpoint take (n : nat) (s : string) : string :=
  match n, s with
  | S k, String c s' => String c (take k s')
  | _, _ => ""
  end.

(** [s[a:b]] for non-negative indices. *)
Definition slice (a b : nat) (s : string) : string := take (b - a) (drop a s).

Fixpoint run_length (p : ascii -> bool) (s : string) : nat :=
  match s with
  | String c s' => if p c then S (run_length p s') else 0
  | "" => 0
  end.

Fixpoint first_some {A B} (f : A -> option B) (l : list A) : option B :=
  match l with
  | [] => None
  | x :: l' => match f x with Some r => Some r | None => first_some f l' end
  end.

Section Matcher.

Variable text : string.

(** [exec r st k]: match [r] at [pos st], then run the rest of the pattern
    [k]; alternatives are tried in the order of a backtracking engine. *)
Fixpoint exec (r : regex) (st : mstate) (k : mstate -> option mstate)
  : option mstate :=
  match r with
  | Lit s =>
      if startswith s (drop (pos st) text)
      then k (advance st (String.length s)) else None
  | Cls p =>
      match drop (pos st) text with
      | String c _ => if p c then k (advance st 1) else None
      | "" => None
      end
  | Rep lazy min p =>
      let n := run_length p (drop (pos st) text) in
      let counts := seq min (S n - min) in
      first_some (fun j => k (advance st j))
                 (if lazy then counts else rev counts)
  | Seq a b => exec a st (fun st' => exec b st' k)
  | Opt a =>
      match exec a st k with
      | Some r => Some r
      | None => k st
      end
  | Grp n a =>
      exec a st (fun st' => k (set_cap n (slice (pos st) (pos st') text) st'))
  | NotBehind s =>
      let n := String.length s in
      if (n <=? pos st)%nat && startswith s (drop (pos st - n) text)
      then None else k st
  end.

(** The leftmost match starting at [i] or later: its start and final
    state. *)
Fixpoint search_from (r : regex) (fuel i : nat) : option (nat * mstate) :=
  match exec r (MState i []) Some with
  | Some st => Some (i, st)
  | None =>
      match fuel with
      | O => None
      | S f => search_from r f (S i)
      end
  end.

Definition search (r : regex) (i : nat) : option (nat * mstate) :=
  if (i <=? String.length text)%nat
  then search_from r (String.length text - i) i else None.

(** [finditer]: successive non-overlapping matches, left to right.  Every
    round moves on by one character at least, so [S (length text)] rounds
    reach the end of the text. *)
Fixpoint finditer_go (r : regex) (fuel i : nat) : list (nat * mstate) :=
  match fuel with
  | O => []
  | S f =>
      match search r i with
      | None => []
      | Some (b, st) =>
          (b, st) :: finditer_go r f (if (pos st =? b)%nat then S b else pos st)
      end
  end.

Definition finditer (r : regex) : list (nat * mstate) :=
  finditer_go r (S (String.length text)) 0.

End Matcher.

(** *** Replacement templates ([re.sub] with a string [repl]) *)

Inductive piece :=
| PLit (s : string)
| PGroup (n : nat).

Definition is_octal (c : ascii) : bool := ((48 <=? code c) && (code c <=? 55))%N.
Definition is_digit (c : ascii) : bool := ((48 <=? code c) && (code c <=? 57))%N.
Definition is_ascii_letter (c : ascii) : bool :=
  ((65 <=? code c) && (code c <=? 90) || (97 <=? code c) && (code c <=? 122))%N.
Definition digit_val (c : ascii) : nat := N.to_nat (code c) - 48.

(** [str.isidentifier] on the modelled range. *)
Definition is_id_start (c : ascii) : bool :=
  let n := code c in
  (is_ascii_letter c || (n =? 95) || (n =? 170) || (n =? 181) || (n =? 186)
   || (192 <=? n) && negb (n =? 215) && negb (n =? 247))%N.
Definition is_id_char (c : ascii) : bool :=
  (is_id_start c || is_digit c || (code c =? 183))%N.
Definition is_identifier (s : string) : bool :=
  match s with
  | "" => false
  | String c s' => is_id_start c && str_forall is_id_char s'
  end.

Definition escape_char (c : ascii) : option ascii :=
  if Ascii.eqb c "a" then Some "007"%char
  else if Ascii.eqb c "b" then Some "008"%char
  else if Ascii.eqb c "f" then Some "012"%char
  else if Ascii.eqb c "n" then Some "010"%char
  else if Ascii.eqb c "r" then Some "013"%char
  else if Ascii.eqb c "t" then Some "009"%char
  else if Ascii.eqb c "v" then Some "011"%char
  else if Ascii.eqb c "\" then Some "\"%char
  else None.

Definition chr (n : nat) : string := String (ascii_of_nat n) "".

(** [parse_template]: [ngroups] is the number of groups of the pattern,
    which has no named group.  [skip] as in [replace_go]. *)
Fixpoint parse_template (ngroups skip : nat) (s : string)
  : result (list piece) :=
  let addgroup (n : nat) (rest : result (list piece)) :=
    if (ngroups <? n)%nat then Raise ReError
    else rbind rest (fun l => Ok (PGroup n :: l)) in
  let lit (t : string) (rest : result (list piece)) :=
    rbind rest (fun l => Ok (PLit t :: l)) in
  match s with
  | "" => Ok []
  | String c s' =>
      match skip with
      | S k => parse_template ngroups k s'
      | O =>
          if negb (Ascii.eqb c "\") then lit (String c "") (parse_template ngroups 0 s')
          else
            match s' with
            | "" => Raise ReError
            | String "g" s2 =>
                match s2 with
                | String "<" s3 =>
                    match cut ">" s3 with
                    | None => Raise ReError
                    | Some ("", _) => Raise ReError
                    | Some (name, _) =>
                        if is_identifier name then Raise IndexError
                        else
                          match PyInt.parse name with
                          | Some n =>
                              if (n <? 0)%Z then Raise ReError
                              else addgroup (Z.to_nat n)
                                     (parse_template ngroups
                                        (3 + String.length name) s')
                          | None => Raise ReError
                          end
                    end
                | _ => Raise ReError
                end
            | String "0" s2 =>
                match s2 with
                | String d1 (String d2 _) =>
                    if is_octal d1 && is_octal d2
                    then lit (chr (8 * digit_val d1 + digit_val d2))
                           (parse_template ngroups 3 s')
                    else if is_octal d1
                    then lit (chr (digit_val d1)) (parse_template ngroups 2 s')
                    else lit (chr 0) (parse_template ngroups 1 s')
                | String d1 "" =>
                    if is_octal d1
                    then lit (chr (digit_val d1)) (parse_template ngroups 2 s')
                    else lit (chr 0) (parse_template ngroups 1 s')
                | "" => lit (chr 0) (parse_template ngroups 1 s')
                end
            | String d s2 =>
                if is_digit d then
                  match s2 with
                  | String d2 s3 =>
                      if is_digit d2 then
                        match s3 with
                        | String d3 _ =>
                            if is_octal d && is_octal d2 && is_octal d3
                            then
                              let v := 64 * digit_val d + 8 * digit_val d2
                                       + digit_val d3 in
                              if (255 <? v)%nat then Raise ReError
                              else lit (chr v) (parse_template ngroups 3 s')
                            else addgroup (10 * digit_val d + digit_val d2)
                                   (parse_template ngroups 2 s')
                        | "" => addgroup (10 * digit_val d + digit_val d2)
                                  (parse_template ngroups 2 s')
                        end
                      else addgroup (digit_val d) (parse_template ngroups 1 s')
                  | "" => addgroup (digit_val d) (parse_template ngroups 1 s')
                  end
                else
                  match escape_char d with
                  | Some e => lit (String e "") (parse_template ngroups 1 s')
                  | None =>
                      if is_ascii_letter d then Raise ReError
                      else lit (String c (String d ""))
                             (parse_template ngroups 1 s')
                  end
            end
      end
  end.

Definition expand (caps : list (nat * string)) (l : list piece) : string :=
  fold_right (fun p acc =>
                match p with
                | PLit s => s ++ acc
                | PGroup n => group_of caps n ++ acc
                end) "" l.

(** [re.sub(r, repl, text, count=1)]: the template is compiled before the
    text is searched. *)
Definition sub1 (r : regex) (ngroups : nat) (repl text : string)
  : result string :=
  rbind (parse_template ngroups 0 repl) (fun tpl =>
    match search text r 0 with
    | None => Ok text
    | Some (b, st) =>
        Ok (take b text ++ expand (caps st) tpl ++ drop (pos st) text)
    end).

End Re.

(** ** [wikilink] *)

Definition dquote : string := String "034"%char "".

Definition any_char (c : ascii) : bool := negb (Ascii.eqb c "010"%char).
Definition not_lt (c : ascii) : bool := negb (Ascii.eqb c "<"%char).
Definition bar (c : ascii) : bool := Ascii.eqb c "|"%char.

Import Re.

(** The pattern, compiled with [re.X] (blanks in the pattern are not part
    of it):
    [((?<!\<code\>)\[\[([^<].+?) \s* ([|] \s* (.+?) \s* )? ]])] *)
Definition link_regex : regex :=
  Grp 1 (NotBehind "<code>" ;;; Lit "[[" ;;;
         Grp 2 (Cls not_lt ;;; Rep true 1 any_char) ;;;
         Rep false 0 is_space ;;;
         Opt (Grp 3 (Cls bar ;;; Rep false 0 is_space ;;;
                     Grp 4 (Rep true 1 any_char) ;;;
                     Rep false 0 is_space)) ;;;
         Lit "]]").

(** [link_regex.findall(text)]: one tuple of the four groups per match. *)
Definition findall_links (text : string) : list (string * string * string * string) :=
  map (fun m => let g := group_of (caps (snd m)) in (g 1, g 2, g 3, g 4))
      (finditer text link_regex).

Definition anchor (href title : string) : string :=
  "<a href='" ++ href ++ "'>" ++ title ++ "</a>".

(** [url_formatter] is applied to the endpoint ['wiki.display'] and the
    keyword [url]. *)
Definition wikilink (url_formatter : string -> string -> string)
    (text : string) : result string :=
  rfold (fun text i =>
           let '(_, g2, _, g4) := i in
           let title := if String.eqb g4 "" then g2 else g4 in
           let url := clean_url g2 in
           let html_url := anchor (url_formatter "wiki.display" url) title in
           sub1 link_regex 4 html_url text)
        text (findall_links text).

(** ** [Processor] *)

Definition LF : string := String "010"%char "".
Definition CR : string := String "013"%char "".

(** An entry of [md.Meta]: the renderer stores a list of lines,
    [process_meta] overwrites some entries with a [str]. *)
Inductive meta_val :=
| MLines (l : list string)
| MStr (s : string).

(** ['\n'.join(v)]: a [str] is iterated character by character. *)
Definition join_val (v : meta_val) : string :=
  match v with
  | MLines l => join LF l
  | MStr s => join LF (chars s)
  end.

(** [d[k] = v] on an [OrderedDict]: a known key keeps its place. *)
Fixpoint od_set (k v : string) (d : list (string * string))
  : list (string * string) :=
  match d with
  | [] => [(k, v)]
  | (k', v') :: d' =>
      if String.eqb k' k then (k, v) :: d' else (k', v') :: od_set k v d'
  end.

Fixpoint od_get (k : string) (d : list (string * string)) : option string :=
  match d with
  | [] => None
  | (k', v) :: d' => if String.eqb k' k then Some v else od_get k d'
  end.

(** What the module takes from its libraries and its host: the Markdown
    renderer with the [meta] extension ([md_convert] is the HTML of a
    text, [md_Meta] the [Meta] attribute the conversion leaves), flask's
    [url_for] (applied to an endpoint and the keyword [url]), the [json]
    codec of history files ([json_load] is [None] when the text is
    rejected), the text [str(a / b)] of a quotient of integers
    ([float_str], [None] when the quotient overflows), and the clock's
    date format.  A history file holds an object of entries, the records
    the store writes; other JSON documents are outside the model. *)
Record entry := Entry {
  user : string;
  formatted_date : string;
  version : string
}.

(** A key of [History.entries]: a [str] when it was read from the file,
    the clock's reading (microseconds since the epoch) when [save] made
    it. *)
Abbreviation hkey := (string + Z)%type.

Class Externals := {
  md_convert : string -> string;
  md_Meta : string -> gmap string (list string);
  url_for : string -> string -> string;
  json_load : string -> option (gmap string entry);
  json_dump : gmap hkey entry -> string;
  float_str : Z -> Z -> option string;
  strftime : Z -> string
}.

Module Processor.

Definition preprocessors : list (string -> string) := [].

Definition postprocessors `{Externals} : list (string -> result string) :=
  [wikilink url_for].

Definition process_pre (input : string) : string :=
  fold_left (fun current processor => processor current) preprocessors input.

(** [self.meta_raw, self.markdown = self.pre.split('\n\n', 1)] *)
Definition split_raw (pre : string) : result (string * string) :=
  match cut (LF ++ LF) pre with
  | Some (meta_raw, markdown) => Ok (meta_raw, markdown)
  | None => Raise (ValueError "not enough values to unpack")
  end.

(** [line.split(':', 1)[0]] *)
Definition line_key (line : string) : string :=
  match cut ":" line with
  | Some (key, _) => key
  | None => line
  end.

(** [int(rate[1])] *)
Definition int_field (rate : list string) : result Z :=
  match rate !! 1%nat with
  | None => Raise IndexError
  | Some tok =>
      match PyInt.parse tok with
      | Some v => Ok v
      | None => Raise (ValueError "invalid literal for int()")
      end
  end.

Record rating_acc := RatingAcc {
  rate_Num : Z;
  times_rated : Z;
  rated : Z
}.

(** The body of the first loop of [process_meta]. *)
Definition scan_rating (acc : rating_acc) (line : string) : result rating_acc :=
  let key := line_key line in
  let rate := words line in
  if key =? "total" then
    v ← int_field rate; Ok (RatingAcc v (times_rated acc) (rated acc))
  else if key =? "timesrated" then
    v ← int_field rate; Ok (RatingAcc (rate_Num acc) (v + 1) (rated acc))
  else if key =? "rating" then
    v ← int_field rate; Ok (RatingAcc (rate_Num acc) (times_rated acc) v)
  else Ok acc.

(** [total] and [times_rated] as they stand before the quotient
    [total / times_rated] is taken. *)
Definition rating_stats (meta_raw : string) : result (Z * Z) :=
  acc ← rfold scan_rating (RatingAcc 0 1 0) (split LF meta_raw);
  Ok ((rated acc + rate_Num acc)%Z, times_rated acc).

(** The body of the second loop. *)
Definition store_line (total times_rated : Z) (rated : string)
    (st : gmap string meta_val * list (string * string)) (line : string)
  : result (gmap string meta_val * list (string * string)) :=
  let '(Meta, meta) := st in
  let key := line_key line in
  let Meta :=
    if key =? "total" then <[lower key := MStr (lower (PyInt.to_str total))]> Meta
    else if key =? "timesrated"
    then <[lower key := MStr (lower (PyInt.to_str times_rated))]> Meta
    else if key =? "rating" then <[lower key := MStr (lower rated)]> Meta
    else Meta in
  match Meta !! lower key with
  | None => Raise (KeyError (lower key))
  | Some v => Ok (Meta, od_set (lower key) (join_val v) meta)
  end.

(** [process_meta]: returns [md.Meta] as the loop leaves it and
    [self.meta]. *)
Definition process_meta `{Externals} (meta_raw : string)
    (Meta : gmap string meta_val)
  : result (gmap string meta_val * list (string * string)) :=
  '(total, times_rated) ← rating_stats meta_raw;
  rated ← (if (times_rated =? 0)%Z then Raise ZeroDivisionError
           else match float_str total times_rated with
                | Some s => Ok s
                | None => Raise OverflowError
                end);
  rfold (store_line total times_rated rated) (Meta, []) (split LF meta_raw).

Definition process_post `{Externals} (html : string) : result string :=
  rfold (fun current processor => processor current) html postprocessors.

(** [find_tags]: the start of every match of the pattern [substr], which
    is literal text at both call sites. *)
Definition find_tags (substr given_string : string) : list nat :=
  map fst (finditer given_string (Lit substr)).

Definition at_index (l : list nat) (i : nat) : result nat :=
  match l !! i with
  | Some x => Ok x
  | None => Raise IndexError
  end.

Definition table_open : string :=
  "<div class=" ++ dquote ++ "row" ++ dquote ++ "><div class=" ++ dquote
  ++ "span2" ++ dquote
  ++ "><h3>Contents</h3><ul class='nav nav-tabs nav-stacked'>".

(** [generate_contents_table(self, final)]; [self_final] is [self.final]. *)
Definition generate_contents_table (self_final final : string)
  : result string :=
  if contains "<h1>" final then
    let header_open_loc := find_tags "<h1>" self_final in
    let header_close_loc := find_tags "</h1>" self_final in
    table_html ←
      rfold (fun table_html i =>
               o ← at_index header_open_loc i;
               c ← at_index header_close_loc i;
               let header := slice (o + 4) c final in
               let header_f := "#" ++ replace " " "_" header in
               Ok (table_html ++ "<li><a href=" ++ dquote ++ header_f ++ dquote
                   ++ ">" ++ header ++ "</a></li>"))
            table_open (seq 0 (length header_open_loc));
    final ←
      rfold (fun final i =>
               o ← at_index header_open_loc i;
               c ← at_index header_close_loc i;
               let header := slice (o + 4) c final in
               let header_f := replace " " "_" header in
               Ok (take o final ++ "<a name=" ++ dquote ++ header_f ++ dquote
                   ++ "></a>" ++ drop o final))
            final (rev (seq 0 (length header_open_loc)));
    Ok (table_html ++ "</ul><br></div></div>" ++ final)
  else Ok final.

(** [process]: the final HTML, the markdown body and the metadata. *)
Definition process `{Externals} (input : string)
  : result (string * string * list (string * string)) :=
  let pre := process_pre input in
  let html := md_convert pre in
  let Meta : gmap string meta_val := MLines <$> md_Meta pre in
  '(meta_raw, markdown) ← split_raw pre;
  '(_, meta) ← process_meta meta_raw Meta;
  final ← process_post html;
  final ← generate_contents_table final final;
  Ok (final, markdown, meta).

End Processor.

(** ** [os.path] *)

(** [os.path] is [posixpath] or [ntpath] by platform.  A flavour names
    the separator [os.sep], the alternative separator, whether two
    leading separators are kept by [normpath], and whether a text file
    is written with CR LF line ends.  For [ntpath] the model covers paths
    without a drive letter or UNC prefix. *)
Class Flavour := {
  sep : ascii;
  altsep : option ascii;
  keeps_double : bool;
  crlf : bool
}.

Definition posix : Flavour := {|
  sep := "/"; altsep := None; keeps_double := true; crlf := false
|}.

Definition nt : Flavour := {|
  sep := "\"; altsep := Some "/"%char; keeps_double := false; crlf := true
|}.

Module OsPath.

Section Flavoured.

Context {fl : Flavour}.

Definition is_sep (c : ascii) : bool :=
  Ascii.eqb c sep
  || match altsep with
     | Some a => Ascii.eqb c a
     | None => false
     end.

Definition sep_str : string := String sep "".

Definition starts_sep (s : string) : bool :=
  match s with
  | String c _ => is_sep c
  | "" => false
  end.

Definition ends_sep (s : string) : bool :=
  match last_char s with
  | Some c => is_sep c
  | None => false
  end.

(** [os.path.join(a, b)] *)
Definition join (a b : string) : string :=
  if starts_sep b then b
  else if (a =? "") || ends_sep a then a ++ b
  else a ++ sep_str ++ b.

Definition dotdot : string := "..".

(** One round of the loop of [normpath]; the components kept so far are
    held last first. *)
Definition norm_step (initial : nat) (new_comps : list string)
    (comp : string) : list string :=
  if (comp =? "") || (comp =? ".") then new_comps
  else if negb (comp =? dotdot)
          || (initial =? 0)%nat && bool_decide (new_comps = [])
          || (match new_comps with
              | top :: _ => top =? dotdot
              | [] => false
              end)
  then comp :: new_comps
  else tail new_comps.

Fixpoint seps (n : nat) : string :=
  match n with
  | O => ""
  | S k => String sep (seps k)
  end.

(** [os.path.normpath(path)] *)
Definition normpath (path : string) : string :=
  let path :=
    match altsep with
    | Some a => replace (String a "") sep_str path
    | None => path
    end in
  if path =? "" then "."
  else
    let initial :=
      if startswith sep_str path
      then if keeps_double && startswith (seps 2) path
              && negb (startswith (seps 3) path)
           then 2%nat else 1%nat
      else 0%nat in
    let comps := split sep_str path in
    let new_comps := fold_left (norm_step initial) comps [] in
    let path := seps initial ++ PyStr.join sep_str (rev new_comps) in
    if path =? "" then "." else path.

(** [os.path.commonprefix((a, b))]: the longest common prefix, character
    by character. *)
Fixpoint commonprefix (a b : string) : string :=
  match a, b with
  | String c a', String d b' =>
      if Ascii.eqb c d then String c (commonprefix a' b') else ""
  | _, _ => ""
  end.

(** The part of [p] up to its last separator, the separator included. *)
Fixpoint head_part (p : string) : string :=
  match p with
  | "" => ""
  | String c p' =>
      match head_part p' with
      | "" => if is_sep c then String c "" else ""
      | h => String c h
      end
  end.

Fixpoint rstrip_seps (s : string) : string :=
  match s with
  | "" => ""
  | String c s' =>
      match rstrip_seps s' with
      | "" => if is_sep c then "" else String c ""
      | r => String c r
      end
  end.

(** [os.path.dirname(p)] *)
Definition dirname (p : string) : string :=
  let head := head_part p in
  match rstrip_seps head with
  | "" => head
  | h => h
  end.

(** [os.path.basename(p)] *)
Definition basename (p : string) : string := drop (String.length (head_part p)) p.

End Flavoured.

End OsPath.

(** ** The file system *)

(** Files and directories are kept under their absolute normalized path:
    a path is resolved lexically, as the kernel resolves it when no
    symbolic link is involved and every directory it names exists, and
    names are compared exactly.  File contents are text. *)
Record fs := FS {
  cwd : string;
  files : gmap string string;
  dirs : gset string
}.

(** State and exceptions: a computation over a state [S] ends with a
    value or an exception, and with the state it reached either way. *)
Definition M (S A : Type) : Type := S -> result A * S.

#[global] Instance M_ret {S} : MRet (M S) := fun A a s => (Ok a, s).
#[global] Instance M_bind {S} : MBind (M S) :=
  fun A B (k : A -> M S B) (m : M S A) s =>
    match m s with
    | (Ok a, s') => k a s'
    | (Raise e, s') => (Raise e, s')
    end.

Definition raise {S A} (e : exn) : M S A := fun s => (Raise e, s).
Definition get_state {S} : M S S := fun s => (Ok s, s).
Definition gets {S A} (g : S -> A) : M S A := fun s => (Ok (g s), s).
Definition put_state {S} (s : S) : M S unit := fun _ => (Ok tt, s).
Definition lift_result {S A} (r : result A) : M S A := fun s => (r, s).

(** Run a computation on the second component of a pair state. *)
Definition on_snd {S T A} (m : M T A) : M (S * T) A :=
  fun st => let '(r, t) := m (snd st) in (r, (fst st, t)).

Module Os.

Import OsPath.

Section Flavoured.

Context {fl : Flavour}.

Definition abspath (f : fs) (p : string) : string := normpath (join (cwd f) p).

(** The root directory is always there. *)
Definition is_dir (f : fs) (k : string) : bool :=
  (k =? sep_str) || bool_decide (k ∈ dirs f).

Definition is_file (f : fs) (k : string) : bool :=
  bool_decide (is_Some (files f !! k)).

(** [os.path.exists(p)] *)
Definition exists_ (p : string) : M fs bool :=
  fun f =>
    (Ok (negb (p =? "") && (is_file f (abspath f p) || is_dir f (abspath f p))), f).

(** What [open(p, 'w')] checks before it truncates. *)
Definition check_writable (p : string) : M fs string :=
  fun f =>
    let k := abspath f p in
    if p =? "" then (Raise (FileNotFoundError p), f)
    else if is_dir f k then (Raise (IsADirectoryError p), f)
    else if is_dir f (dirname k) then (Ok k, f)
    else if is_file f (dirname k) then (Raise (NotADirectoryError p), f)
    else (Raise (FileNotFoundError p), f).

(** A text file is written with the line ends of the platform. *)
Definition line_ends (content : string) : string :=
  if crlf then replace LF (CR ++ LF) content else content.

(** [open(p, 'w')] followed by writes that amount to [content]. *)
Definition write_file (p content : string) : M fs unit :=
  k ← check_writable p;
  f ← get_state;
  put_state (FS (cwd f) (<[k := line_ends content]> (files f)) (dirs f)).

(** Universal newlines, as a text-mode reader applies them. *)
Fixpoint universal_newlines (s : string) : string :=
  match s with
  | "" => ""
  | String c s' =>
      if Ascii.eqb c "013"
      then String "010"
             match s' with
             | String c' s'' =>
                 if Ascii.eqb c' "010" then universal_newlines s''
                 else universal_newlines s'
             | "" => ""
             end
      else String c (universal_newlines s')
  end.

(** [open(p, 'r').read()] *)
Definition read_file (p : string) : M fs string :=
  fun f =>
    let k := abspath f p in
    if p =? "" then (Raise (FileNotFoundError p), f)
    else
      match files f !! k with
      | Some content => (Ok (universal_newlines content), f)
      | None =>
          if is_dir f k then (Raise (IsADirectoryError p), f)
          else (Raise (FileNotFoundError p), f)
      end.

(** [os.mkdir(k)] on a resolved path. *)
Definition mkdir (k : string) : M fs unit :=
  fun f =>
    if is_file f k || is_dir f k then (Raise (FileExistsError k), f)
    else if is_dir f (dirname k)
    then (Ok tt, FS (cwd f) (files f) ({[k]} ∪ dirs f))
    else if is_file f (dirname k) then (Raise (NotADirectoryError k), f)
    else (Raise (FileNotFoundError k), f).

(** The directories from the top down to [k]: [/a] then [/a/b] for
    [/a/b]. *)
Fixpoint chain (fuel : nat) (k : string) (acc : list string) : list string :=
  match fuel with
  | O => acc
  | S n =>
      if (dirname k =? k) || (k =? "") then acc
      else chain n (dirname k) (k :: acc)
  end.

(** [os.makedirs(p)]: the missing ancestors are made first, then [p]
    itself, which must not exist. *)
Fixpoint mkdir_missing (l : list string) : M fs unit :=
  match l with
  | [] => mret tt
  | [k] => mkdir k
  | k :: l' =>
      (fun f => if is_file f k || is_dir f k then (Ok tt, f) else mkdir k f)
      ≫= fun _ => mkdir_missing l'
  end.

Definition makedirs (p : string) : M fs unit :=
  if p =? "" then raise (FileNotFoundError p)
  else
    f ← get_state;
    let k := abspath f p in
    if k =? sep_str then raise (FileExistsError p)
    else mkdir_missing (chain (String.length k) k []).

(** [os.remove(p)] *)
Definition remove (p : string) : M fs unit :=
  fun f =>
    let k := abspath f p in
    if p =? "" then (Raise (FileNotFoundError p), f)
    else if is_file f k then (Ok tt, FS (cwd f) (delete k (files f)) (dirs f))
    else if is_dir f k then (Raise (IsADirectoryError p), f)
    else (Raise (FileNotFoundError p), f).

(** [os.rename(src, dst)] for a regular file [src]; [src] is looked at
    first.  Renaming a directory is not part of the model: the module
    renames page files only. *)
Definition rename (src dst : string) : M fs unit :=
  fun f =>
    let ks := abspath f src in
    let kd := abspath f dst in
    match files f !! ks with
    | None => (Raise (FileNotFoundError src), f)
    | Some content =>
        if (src =? "") || (dst =? "") then (Raise (FileNotFoundError src), f)
        else if is_dir f kd then (Raise (IsADirectoryError dst), f)
        else if is_dir f (dirname kd)
        then (Ok tt, FS (cwd f) (<[kd := content]> (delete ks (files f))) (dirs f))
        else if is_file f (dirname kd) then (Raise (NotADirectoryError dst), f)
        else (Raise (FileNotFoundError dst), f)
    end.

End Flavoured.

End Os.

(** ** [History] *)

(** [sorted(keys, reverse=True)] on [str] keys. *)
Definition str_ge (a b : string) : Prop := String.leb b a = true.

#[global] Instance str_ge_dec : RelDecision str_ge.
Proof. intros a b. unfold str_ge. apply _. Defined.

Definition sorted_desc (l : list string) : list string := merge_sort str_ge l.

Module History.

Record t := Make {
  url : string;
  path : string;
  entries : gmap hkey entry;
  entryKeys : list hkey
}.

Section Flavoured.

Context {fl : Flavour} {ext : Externals}.

(** [create]: writes an empty object and a newline. *)
Definition create (path : string) : M fs unit :=
  Os.write_file path ("{}" ++ LF).

(** [__init__]: the decoded document is an object of entries. *)
Definition init (path url : string) : M fs t :=
  present ← Os.exists_ path;
  (if negb present then create path else mret tt) ≫= fun _ =>
  text ← Os.read_file path;
  match json_load text with
  | None => raise JSONDecodeError
  | Some doc =>
      mret (Make url path (kmap inl doc)
                 (inl <$> sorted_desc (elements (dom doc))))
  end.

(** [save]: [now_date] and [now_key] are the two readings of the clock,
    in the order the assignment takes them.  The state is the object and
    the file system. *)
Definition save (user version : string) (now_date now_key : Z)
  : M (t * fs) unit :=
  self ← gets fst;
  on_snd (Os.write_file (path self) "") ≫= fun _ =>
  let entries' :=
    <[inr now_key := Entry user (strftime now_date) version]> (entries self) in
  f ← gets snd;
  put_state (Make (url self) (path self) entries' (entryKeys self), f) ≫= fun _ =>
  on_snd (Os.write_file (path self) (json_dump entries')).

End Flavoured.

End History.

(** ** [Page] *)

Module Page.

Record t := Make {
  path : string;
  url : string;
  _meta : list (string * string);
  history : History.t;
  content : option string;
  _html : option string;
  body : option string
}.

Definition set_history (h : History.t) (self : t) : t :=
  Make (path self) (url self) (_meta self) h (content self) (_html self)
       (body self).

(** [path.replace("\\" + url + ".md", "/history/" + url + ".json")] *)
Definition history_path (path url : string) : string :=
  replace ("\" ++ url ++ ".md") ("/history/" ++ url ++ ".json") path.

Section Flavoured.

Context {fl : Flavour} {ext : Externals}.

Definition load : M (t * fs) unit :=
  self ← gets fst;
  text ← on_snd (Os.read_file (path self));
  f ← gets snd;
  put_state (Make (path self) (url self) (_meta self) (history self)
                  (Some text) (_html self) (body self), f).

Definition render : M (t * fs) unit :=
  self ← gets fst;
  match content self with
  | None => raise (AttributeError "content")
  | Some text =>
      '(html, body, meta) ← lift_result (Processor.process text);
      f ← gets snd;
      put_state (Make (path self) (url self) meta (history self)
                      (content self) (Some html) (Some body), f)
  end.

(** [__init__]: the object is returned when the constructor ends
    normally. *)
Definition init (path url : string) (new : bool) : M fs t :=
  h ← History.init (history_path path url) url;
  let self := Make path url [] h None None None in
  if new then mret self
  else
    fun f =>
      match (load ≫= fun _ => render) (self, f) with
      | (Ok _, (self', f')) => (Ok self', f')
      | (Raise e, (_, f')) => (Raise e, f')
      end.

(** The header lines of [save]: ['%s: %s\n' % (key, value)]. *)
Definition header (meta : list (string * string)) : string :=
  fold_right (fun kv acc => fst kv ++ ": " ++ snd kv ++ LF ++ acc) "" meta.

(** [save]: when [self.body] is not set the file holds what was written
    before the attribute was asked for. *)
Definition save (user : string) (update : bool)
    (now_date now_key : Z) : M (t * fs) unit :=
  self ← gets fst;
  let folder := OsPath.dirname (path self) in
  present ← on_snd (Os.exists_ folder);
  (if negb present then on_snd (Os.makedirs folder) else mret tt) ≫= fun _ =>
  match body self with
  | None =>
      on_snd (Os.write_file (path self) (header (_meta self) ++ LF)) ≫= fun _ =>
      raise (AttributeError "body")
  | Some body =>
      let text := replace (CR ++ LF) LF body in
      on_snd (Os.write_file (path self) (header (_meta self) ++ LF ++ text))
      ≫= fun _ =>
      (fun st : t * fs =>
         let '(r, (h, f)) :=
           History.save user text now_date now_key (history (fst st), snd st) in
         (r, (set_history h (fst st), f))) ≫= fun _ =>
      if update then load ≫= fun _ => render else mret tt
  end.

End Flavoured.

(** The attributes [getattr] can read, as dictionary keys: text, the
    integer default of [rating] and [flag], the mapping (not hashable)
    and the objects a page owns, told apart by their owner. *)
Inductive attr :=
| AStr (s : string)
| AInt (n : Z)
| AObj (owner name : string).

#[global] Instance attr_eq_dec : EqDecision attr.
Proof. solve_decision. Defined.

Definition from_meta (key : string) (default : attr) (self : t) : attr :=
  match od_get key (_meta self) with
  | Some v => AStr v
  | None => default
  end.

Definition title (self : t) : string :=
  match od_get "title" (_meta self) with
  | Some v => v
  | None => url self
  end.

Definition unset (name : string) (o : option string) : result attr :=
  match o with
  | Some s => Ok (AStr s)
  | None => Raise (AttributeError name)
  end.

Definition getattr (self : t) (name : string) : result attr :=
  if name =? "path" then Ok (AStr (path self))
  else if name =? "url" then Ok (AStr (url self))
  else if name =? "title" then Ok (AStr (title self))
  else if name =? "tags" then Ok (from_meta "tags" (AStr "") self)
  else if name =? "rating" then Ok (from_meta "rating" (AInt 0) self)
  else if name =? "flag" then Ok (from_meta "flag" (AInt 0) self)
  else if name =? "content" then unset name (content self)
  else if name =? "body" then unset name (body self)
  else if (name =? "html") || (name =? "_html") then unset name (_html self)
  else if (name =? "meta") || (name =? "_meta") then Raise TypeError
  else if (name =? "history") || (name =? "load") || (name =? "render")
          || (name =? "save")
  then Ok (AObj (path self) name)
  else Raise (AttributeError name).

(** [self[name]] and [self[name] = value] *)
Definition getitem (self : t) (name : string) : result string :=
  match od_get name (_meta self) with
  | Some v => Ok v
  | None => Raise (KeyError name)
  end.

Definition setitem (name value : string) (self : t) : t :=
  Make (path self) (url self) (od_set name value (_meta self)) (history self)
       (content self) (_html self) (body self).

(** The property [tags]: the empty text when the key is missing. *)
Definition tags (self : t) : string :=
  match getitem self "tags" with
  | Ok v => v
  | Raise _ => ""
  end.

End Page.

(** ** [Wiki] *)

(** [list.append] returns [None]: the values [index_by] stores. *)
Inductive pyval :=
| PNone
| PList (l : list Page.t).

Fixpoint dict_get {V} (k : Page.attr) (d : list (Page.attr * V)) : option V :=
  match d with
  | [] => None
  | (k', v) :: d' => if decide (k' = k) then Some v else dict_get k d'
  end.

Fixpoint dict_set {V} (k : Page.attr) (v : V) (d : list (Page.attr * V))
  : list (Page.attr * V) :=
  match d with
  | [] => [(k, v)]
  | (k', v') :: d' =>
      if decide (k' = k) then (k, v) :: d' else (k', v') :: dict_set k v d'
  end.

(** A stable insertion sort, for [sorted(pages, key=...)]: [x] comes
    before the elements of [l] in the input, and stays before those with
    an equal key. *)
Fixpoint insert_by {A} (key : A -> string) (x : A) (l : list A) : list A :=
  match l with
  | [] => [x]
  | y :: l' =>
      if String.leb (key x) (key y) then x :: l else y :: insert_by key x l'
  end.

Definition sorted_by {A} (key : A -> string) (l : list A) : list A :=
  fold_right (insert_by key) [] l.

Module Wiki.

Import OsPath.

Record t := Make { root : string }.

Section Flavoured.

Context {fl : Flavour} {ext : Externals}.

Definition path (self : t) (url : string) : string :=
  join (root self) (url ++ ".md").

Definition exists_ (self : t) (url : string) : M fs bool :=
  Os.exists_ (path self url).

(** [get]: [None] when no page is there. *)
Definition get (self : t) (url : string) : M fs (option Page.t) :=
  let path := path self url in
  exists_ self url ≫= fun present : bool =>
  if present then page ← Page.init path url false; mret (Some page)
  else mret None.


Definition move (self : t) (url newurl : string) : M fs unit :=
  let source := join (root self) url ++ ".md" in
  let target := join (root self) newurl ++ ".md" in
  let root := normpath (root self) in
  let common := commonprefix root (normpath target) in
  if (String.length common <? String.length root)%nat
  then raise (RuntimeError
                ("Possible write attempt outside content directory: " ++ newurl))
  else
    let folder := dirname target in
    present ← Os.exists_ folder;
    (if negb present then Os.makedirs folder else mret tt) ≫= fun _ =>
    Os.rename source target.

Definition delete (self : t) (url : string) : M fs bool :=
  let path := path self url in
  page ← get self url;
  exists_ self url ≫= fun present : bool =>
  if negb present then mret false
  else
    match page with
    | None => raise (AttributeError "history")
    | Some page =>
        Os.remove (History.path (Page.history page)) ≫= fun _ =>
        Os.remove path ≫= fun _ =>
        mret true
    end.

(** The content files [os.walk] meets below [root], as pairs of the
    directory and the file name.  The order in which a directory is
    listed is the system's; the model takes the order of the file map. *)
Definition walk_md (root : string) (f : fs) : list (string * string) :=
  let top := if root =? sep_str then root else root ++ sep_str in
  omap (fun kv : string * string =>
          let k := fst kv in
          if startswith top k && Os.is_dir f (dirname k)
          then Some (dirname k, basename k) else None)
       (map_to_list (files f)).

Definition endswith_md (s : string) : bool :=
  let n := String.length s in
  (3 <=? n)%nat && (drop (n - 3) s =? ".md").

Fixpoint construct (l : list (string * string)) : M fs (list Page.t) :=
  match l with
  | [] => mret []
  | (p, u) :: l' =>
      page ← Page.init p u false;
      pages ← construct l';
      mret (page :: pages)
  end.

Definition index (self : t) : M fs (list Page.t) :=
  f ← get_state;
  let root := Os.abspath f (root self) in
  let found :=
    omap (fun df : string * string =>
            let '(cur_dir, cur_file) := df in
            let cur_dir_url := drop (String.length root + 1) cur_dir in
            let path := join cur_dir cur_file in
            if endswith_md cur_file
            then Some (path,
                       clean_url (join cur_dir_url
                                    (take (String.length cur_file - 3) cur_file)))
            else None)
         (walk_md root f) in
  pages ← construct found;
  mret (sorted_by (fun x => lower (Page.title x)) pages).

(** The loop of [index_by] over the pages of the index. *)
Definition group_page (key : string) (pages : list (Page.attr * pyval))
    (page : Page.t) : result (list (Page.attr * pyval)) :=
  value ← Page.getattr page key;
  match default (PList []) (dict_get value pages) with
  | PList pre => Ok (dict_set value PNone pages)
  | PNone => Raise (AttributeError "append")
  end.

Definition index_by (self : t) (key : string)
  : M fs (list (Page.attr * pyval)) :=
  pages ← index self;
  lift_result (rfold (group_page key) [] pages).

(** The inner loop of [get_tags]: one comma-separated part of the tags
    of [page]. *)
Definition add_tag (page : Page.t) (tags : gmap string (list Page.t))
    (tag : string) : gmap string (list Page.t) :=
  let tag := strip tag in
  if tag =? "" then tags
  else
    match tags !! tag with
    | Some (p :: l) => <[tag := ((p :: l) ++ [page])%list]> tags
    | _ => <[tag := [page]]> tags
    end.

Definition tags_of_page (tags : gmap string (list Page.t)) (page : Page.t)
  : gmap string (list Page.t) :=
  fold_left (add_tag page) (split "," (Page.tags page)) tags.

Definition get_tags (self : t) : M fs (gmap string (list Page.t)) :=
  pages ← index self;
  mret (fold_left tags_of_page pages ∅).

(** [tag in page.tags] is a test for a substring. *)
Definition index_by_tag (self : t) (tag : string) : M fs (list Page.t) :=
  pages ← index self;
  mret (sorted_by (fun x => lower (Page.title x))
                  (filter (fun page => Is_true (contains tag (Page.tags page)))
                          pages)).

End Flavoured.

End Wiki.

(** ** An environment to run the model on *)

(** A small instance of [Externals]: a renderer that returns its input
    and reads the [key: value] lines above the first blank line (a line
    needs a key), a codec
    that reads the empty object and prints the keys of a map, integral
    quotients printed the way [str] prints a float (others are left as a
    fraction), and a clock format that prints the reading. *)
Module Sample.

Definition meta_line (acc : gmap string (list string)) (line : string)
  : gmap string (list string) :=
  match cut ":" line with
  | Some (k, v) =>
      if strip k =? "" then acc else <[lower (strip k) := [strip v]]> acc
  | None => acc
  end.

Definition Meta (text : string) : gmap string (list string) :=
  match cut (LF ++ LF) text with
  | Some (head, _) => fold_left meta_line (split LF head) ∅
  | None => ∅
  end.

Definition load (text : string) : option (gmap string entry) :=
  if (text =? "{}" ++ LF) || (text =? "{}") then Some ∅ else None.

Definition key_text (k : hkey) : string :=
  match k with
  | inl s => s
  | inr t => PyInt.to_str t
  end.

Definition dump (m : gmap hkey entry) : string :=
  "{" ++ join ", " (map (fun kv => dquote ++ key_text (fst kv) ++ dquote)
                        (map_to_list m)) ++ "}".

Definition quotient (a b : Z) : option string :=
  if (a mod b =? 0)%Z then Some (PyInt.to_str (a / b) ++ ".0")
  else Some (PyInt.to_str a ++ "/" ++ PyInt.to_str b).

Definition externals : Externals := {|
  md_convert := fun text => text;
  md_Meta := Meta;
  url_for := fun endpoint url => "/" ++ url ++ "/";
  json_load := load;
  json_dump := dump;
  float_str := quotient;
  strftime := PyInt.to_str
|}.

End Sample.

(** ** The vocabulary of the properties *)

(** *** Normal forms of [clean_url] *)

Definition is_not (c : ascii) : ascii -> bool := fun a => negb (Ascii.eqb a c).

(** The first and the last character of a stripped string are not
    blank. *)
Definition first_ok (s : string) : bool :=
  match s with
  | "" => true
  | String c _ => negb (is_space c)
  end.

Definition last_ok (s : string) : bool :=
  match last_char s with
  | None => true
  | Some c => negb (is_space c)
  end.

Definition lowered (c : ascii) : bool := Ascii.eqb (lower_char c) c.

(** The characters of a cleaned url: lower case, no space, no backslash. *)
Definition url_char (c : ascii) : bool :=
  lowered c && is_not " " c && is_not "\" c.

Definition cleaned (s : string) : Prop :=
  str_forall url_char s = true /\ first_ok s = true /\ last_ok s = true.

(** *** The reserved keys of a metadata header *)

(** The line that decides a reserved key: the last one that carries
    it. *)
Fixpoint last_line (key : string) (lines : list string) : option string :=
  match lines with
  | [] => None
  | line :: lines' =>
      match last_line key lines' with
      | Some l => Some l
      | None => if Processor.line_key line =? key then Some line else None
      end
  end.

(** The number a line gives: its second blank-separated word. *)
Definition field_of (line : string) : option Z :=
  (words line !! 1%nat) ≫= PyInt.parse.

(** The number a header gives for a key. *)
Definition header_int (key : string) (lines : list string) : option Z :=
  last_line key lines ≫= field_of.

(** The divisor of the average: one more than the header's count, and 1
    when the header has none. *)
Definition divisor (lines : list string) : Z :=
  match header_int "timesrated" lines with
  | Some n => (n + 1)%Z
  | None => 1%Z
  end.

(** The divisor as the specification words it: the header's count, and 1
    when the header has none. *)
Definition spec_divisor (lines : list string) : Z :=
  default 1%Z (header_int "timesrated" lines).

Definition reserved (key : string) : bool :=
  (key =? "total") || (key =? "timesrated") || (key =? "rating").

(** What the second loop stores in [md.Meta] under a reserved key. *)
Definition stored (total n : Z) (avg key : string) : meta_val :=
  if key =? "total" then MStr (lower (PyInt.to_str total))
  else if key =? "timesrated" then MStr (lower (PyInt.to_str n))
  else MStr (lower avg).

(** *** Successive saves on one history *)

(** A call of [save]: the user, the text, and the two clock readings. *)
Record call := Call {
  call_user : string;
  call_version : string;
  call_date : Z;
  call_key : Z
}.

Fixpoint save_all {fl : Flavour} {ext : Externals} (calls : list call)
  : M (History.t * fs) unit :=
  match calls with
  | [] => mret tt
  | c :: rest =>
      History.save (call_user c) (call_version c) (call_date c) (call_key c)
      ≫= fun _ => save_all rest
  end.

Definition saved {ext : Externals} (c : call) : entry :=
  Entry (call_user c) (strftime (call_date c)) (call_version c).

(** *** Sample wikis *)

(** A header with all three reserved keys, and what the renderer read
    from it. *)
Definition rated_header : string :=
  "total: 4" ++ LF ++ "timesrated: 1" ++ LF ++ "rating: 2".

Definition rated_Meta : gmap string meta_val :=
  MLines <$> Sample.Meta (rated_header ++ LF ++ LF ++ "body").

(** A content root [wiki] with its [history] directory and one page, on
    either platform. *)
Definition hello_text : string :=
  "title: Hello" ++ LF ++ LF ++ "Hello, world.".

Definition posix_fs : fs :=
  FS "/" {[ "/wiki/hello.md" := hello_text ]} {[ "/wiki"; "/wiki/history" ]}.

Definition nt_fs : fs :=
  FS "\" {[ "\wiki\hello.md" := hello_text ]} {[ "\wiki"; "\wiki\history" ]}.

Definition wiki : Wiki.t := Wiki.Make "wiki".

(** A content file without a blank line. *)
Definition nt_fs_bad : fs :=
  FS "\" {[ "\wiki\bad.md" := "no blank line" ]} {[ "\wiki"; "\wiki\history" ]}.

(** Two pages with the same tags. *)
Definition nt_fs_tagged : fs :=
  FS "\"
     {[ "\wiki\a.md" := "title: A" ++ LF ++ "tags: x" ++ LF ++ LF ++ "a";
        "\wiki\b.md" := "title: B" ++ LF ++ "tags: x" ++ LF ++ LF ++ "b" ]}
     {[ "\wiki"; "\wiki\history" ]}.

Definition two_calls : list call :=
  [Call "ann" "first" 10 100; Call "bob" "second" 20 200].

(** The history object after its construction and one [save], when both
    end normally. *)
Definition after_one_save : option History.t :=
  match History.init (fl := nt) (ext := Sample.externals)
          "wiki/history/hello.json" "hello" nt_fs with
  | (Ok h0, f1) =>
      match History.save (fl := nt) (ext := Sample.externals)
              "ann" "first" 10 100 (h0, f1)
      with
      | (Ok _, (h, _)) => Some h
      | _ => None
      end
  | _ => None
  end.

(** A new page with an empty metadata mapping, as [get_bare] returns it
    once its history file is there, with a body. *)
Definition new_history : History.t :=
  History.Make "new" "wiki/history/new.json" ∅ [].

Definition new_page (body : string) : Page.t :=
  Page.Make "wiki\new.md" "new" [] new_history None None (Some body).

(** A formatter of urls for [wikilink]. *)
Definition slash_url (endpoint url : string) : string := "/" ++ url.

(** *** Loops, headers and listings *)

(** A result that is the [RuntimeError] of [move]'s guard. *)
Definition is_runtime (r : result unit) : bool :=
  match r with
  | Raise (RuntimeError _) => true
  | _ => false
  end.

(** A header line as [save] writes it, without its line end. *)
Definition header_line (kv : string * string) : string :=
  fst kv ++ ": " ++ snd kv.

(** The order [sorted(l, key=...)] leaves a list in. *)
Definition key_le {A} (key : A -> string) (a b : A) : Prop :=
  String.leb (key a) (key b) = true.

(** The order of the index: by title, letter case ignored. *)
Definition by_title : Page.t -> Page.t -> Prop :=
  key_le (fun x => lower (Page.title x)).

(** What one page adds to the list of a tag: itself, once for every
    comma-separated part of its tags that is the tag when stripped. *)
Definition listed (tag : string) (page : Page.t) : list Page.t :=
  flat_map (fun part =>
              if decide (strip part = tag /\ tag <> "") then [page] else [])
           (split "," (Page.tags page)).

Definition tagged (tag : string) (pages : list Page.t) : list Page.t :=
  flat_map (listed tag) pages.

(** A dictionary of lists holds no empty list. *)
Definition nonempty {A} (l : list A) : option (list A) :=
  match l with
  | [] => None
  | _ => Some l
  end.

(** A page with a title, as it stands before it is saved and after it was
    loaded. *)
Definition titled_page (body : string) : Page.t :=
  Page.Make "wiki\new.md" "new" [("title", "New")] new_history None None
            (Some body).

Definition loaded_page : Page.t :=
  Page.Make "wiki\hello.md" "hello" [] new_history (Some hello_text) None None.

(** A content root without pages. *)
Definition nt_fs_empty : fs := FS "\" ∅ {[ "\wiki"; "\wiki\history" ]}.

(** A pattern that [re] reads as literal text: it holds none of the
    characters [re] gives a meaning to. *)
Definition re_special (c : ascii) : bool :=
  existsb (Ascii.eqb c) (list_ascii_of_string ".^$*+?{}[]\|()").

Definition re_literal (s : string) : bool :=
  str_forall (fun c => negb (re_special c)) s.

(** A text without a backslash, and a state of the matcher whose groups
    are such texts. *)
Definition plain (s : string) : bool := str_forall (is_not "\") s.

Definition plain_caps (st : mstate) : Prop :=
  Forall (fun p => plain (snd p) = true) (caps st).

(** * Properties *)

Lemma rfold_cons {A B} (f : A -> B -> result A) acc x l :
  rfold f acc (x :: l) = rbind (f acc x) (fun acc' => rfold f acc' l).
Proof. reflexivity. Qed.

(** ** Strings *)

Section StrFacts.

Implicit Types (s t old new : string) (c : ascii) (p q : ascii -> bool).

Lemma str_forall_app p s t :
  str_forall p (s ++ t) = str_forall p s && str_forall p t.
Proof.
  induction s as [|c s IH]; simpl; [reflexivity|].
  rewrite IH. apply andb_assoc.
Qed.

Lemma str_forall_and p q s :
  str_forall (fun c => p c && q c) s = str_forall p s && str_forall q s.
Proof.
  induction s as [|c s IH]; simpl; [reflexivity|].
  rewrite IH. destruct (p c), (q c), (str_forall p s); reflexivity.
Qed.

Lemma str_forall_impl p q s :
  (forall c, p c = true -> q c = true) ->
  str_forall p s = true -> str_forall q s = true.
Proof.
  intros Hpq. induction s as [|c s IH]; simpl; [reflexivity|].
  intros [Hc Hs]%andb_true_iff. rewrite (Hpq _ Hc). simpl. auto.
Qed.

Lemma app_empty_r s : s ++ "" = s.
Proof. induction s as [|c s IH]; simpl; congruence. Qed.

Lemma app_assoc_str s t u : (s ++ t) ++ u = s ++ t ++ u.
Proof. induction s as [|c s IH]; simpl; congruence. Qed.

Lemma last_char_app s t :
  last_char (s ++ t) = match last_char t with Some c => Some c | None => last_char s end.
Proof.
  induction s as [|c s IH]; simpl.
  - destruct (last_char t); reflexivity.
  - rewrite IH. destruct (last_char t); [reflexivity|].
    reflexivity.
Qed.

Lemma last_char_None s : last_char s = None -> s = "".
Proof.
  destruct s as [|c s]; simpl; [reflexivity|].
  destruct (last_char s); discriminate.
Qed.

Lemma startswith_nil s : startswith "" s = true.
Proof. destruct s; reflexivity. Qed.

Lemma startswith_cons c old d s :
  startswith (String c old) (String d s)
  = bool_decide (c = d) && startswith old s.
Proof.
  unfold startswith. simpl.
  destruct (ascii_dec c d) as [->|Hne].
  - rewrite bool_decide_eq_true_2 by reflexivity. reflexivity.
  - rewrite bool_decide_eq_false_2 by assumption. reflexivity.
Qed.

Lemma startswith_refl s t : startswith s (s ++ t) = true.
Proof.
  induction s as [|c s IH]; simpl; [apply startswith_nil|].
  rewrite startswith_cons, IH, bool_decide_eq_true_2; reflexivity.
Qed.

Lemma startswith_spec old s :
  startswith old s = true <-> exists t, s = old ++ t.
Proof.
  split.
  - revert s. induction old as [|c old IH]; intros s H.
    + exists s. reflexivity.
    + destruct s as [|d s]; [discriminate H|].
      rewrite startswith_cons in H. apply andb_true_iff in H as [Hc Hs].
      apply bool_decide_eq_true in Hc as ->.
      destruct (IH _ Hs) as [t ->]. exists t. reflexivity.
  - intros [t ->]. apply startswith_refl.
Qed.

Lemma drop_app_length s t : drop (String.length s) (s ++ t) = t.
Proof. induction s as [|c s IH]; simpl; [destruct t; reflexivity|exact IH]. Qed.

(** *** [replace] *)

Lemma replace_go_nil old new k : replace_go old new k "" = "".
Proof. destruct k; reflexivity. Qed.

Lemma replace_go_skip_all old new s k :
  String.length s <= k -> replace_go old new k s = "".
Proof.
  revert k. induction s as [|c s IH]; intros k Hk; [apply replace_go_nil|].
  simpl in Hk. destruct k as [|k]; [lia|]. simpl. apply IH. lia.
Qed.

Lemma replace_go_forall p old new k s :
  str_forall p new = true -> str_forall p s = true ->
  str_forall p (replace_go old new k s) = true.
Proof.
  intros Hnew. revert k. induction s as [|c s IH]; intros k Hs.
  - rewrite replace_go_nil. reflexivity.
  - simpl in Hs. apply andb_true_iff in Hs as [Hc Hs].
    simpl. destruct k as [|k]; [|auto].
    destruct (startswith old (String c s)).
    + rewrite str_forall_app, Hnew. simpl. auto.
    + simpl. rewrite Hc. simpl. auto.
Qed.

Lemma replace_go_char_gone c new k s :
  str_forall (is_not c) new = true ->
  str_forall (is_not c) (replace_go (String c "") new k s) = true.
Proof.
  intros Hnew. revert k. induction s as [|d s IH]; intros k.
  - rewrite replace_go_nil. reflexivity.
  - simpl replace_go. destruct k as [|k]; [|apply IH].
    rewrite startswith_cons, startswith_nil, andb_true_r.
    destruct (bool_decide (c = d)) eqn:Hcd.
    + rewrite str_forall_app, Hnew. simpl. apply IH.
    + simpl. rewrite IH, andb_true_r. unfold is_not.
      apply bool_decide_eq_false in Hcd.
      apply negb_true_iff, Ascii.eqb_neq. congruence.
Qed.

Lemma replace_absent c old new s :
  str_forall (is_not c) s = true ->
  replace (String c old) new s = s.
Proof.
  unfold replace. induction s as [|d s IH]; intros Hs; [reflexivity|].
  simpl in Hs. apply andb_true_iff in Hs as [Hd Hs].
  simpl replace_go. rewrite startswith_cons.
  unfold is_not in Hd. apply negb_true_iff, Ascii.eqb_neq in Hd.
  rewrite bool_decide_eq_false_2 by congruence. simpl.
  rewrite IH by assumption. reflexivity.
Qed.

Lemma replace_go_nonempty old new s c :
  new <> "" -> replace_go old new 0 (String c s) <> "".
Proof.
  intros Hnew. simpl. destruct (startswith old (String c s)).
  - destruct new; [congruence|discriminate].
  - discriminate.
Qed.

Lemma last_char_cons c s :
  s <> "" -> last_char (String c s) = last_char s.
Proof.
  intros Hs. simpl. destruct (last_char s) eqn:E; [reflexivity|].
  apply last_char_None in E. contradiction.
Qed.

Lemma replace_go_last old new k s :
  new <> "" ->
  replace_go old new k s = ""
  \/ last_char (replace_go old new k s) = last_char s
  \/ last_char (replace_go old new k s) = last_char new.
Proof.
  intros Hnew. revert k. induction s as [|c s IH]; intros k.
  - left. apply replace_go_nil.
  - destruct k as [|k]; simpl replace_go.
    + destruct (startswith old (String c s)).
      * destruct (IH (String.length old - 1)) as [H|[H|H]].
        -- rewrite H, app_empty_r. right. right. reflexivity.
        -- destruct s as [|d s].
           ++ rewrite replace_go_nil, app_empty_r. right. right. reflexivity.
           ++ right. left. rewrite last_char_app, H.
              rewrite (last_char_cons c) by discriminate.
              destruct (last_char (String d s)) eqn:E; [reflexivity|].
              apply last_char_None in E. discriminate.
        -- right. right. rewrite last_char_app, H.
           destruct (last_char new) eqn:E; [reflexivity|].
           apply last_char_None in E. contradiction.
      * destruct s as [|d s].
        -- right. left. reflexivity.
        -- pose proof (replace_go_nonempty old new s d Hnew) as Hne.
           rewrite (last_char_cons c (replace_go old new 0 (String d s))) by assumption.
           rewrite (last_char_cons c (String d s)) by discriminate.
           destruct (IH 0) as [H|[H|H]]; [contradiction|auto|auto].
    + destruct s as [|d s].
      * left. apply replace_go_nil.
      * rewrite (last_char_cons c) by discriminate. apply IH.
Qed.

End StrFacts.

(** ** [clean_url] is a normal form *)

Section CleanUrl.

Implicit Types (s : string) (c : ascii).

Ltac by_cases c := destruct c as [[] [] [] [] [] [] [] []]; reflexivity.

Lemma is_space_lower c : is_space (lower_char c) = is_space c.
Proof. by_cases c. Qed.

Lemma lowered_lower c : lowered (lower_char c) = true.
Proof. by_cases c. Qed.

Lemma lstrip_first_ok s : first_ok (lstrip s) = true.
Proof.
  induction s as [|c s IH]; simpl; [reflexivity|].
  destruct (is_space c) eqn:E; [exact IH|]. simpl. rewrite E. reflexivity.
Qed.

Lemma rstrip_first_ok s : first_ok s = true -> first_ok (rstrip s) = true.
Proof.
  destruct s as [|c s]; simpl; [reflexivity|]. intros Hc.
  destruct (rstrip s); simpl; [|exact Hc].
  apply negb_true_iff in Hc. rewrite Hc. simpl. rewrite Hc. reflexivity.
Qed.

Lemma rstrip_last_ok s : last_ok (rstrip s) = true.
Proof.
  unfold last_ok. induction s as [|c s IH]; simpl; [reflexivity|].
  destruct (rstrip s) as [|d r] eqn:E.
  - destruct (is_space c) eqn:Ec; simpl; [reflexivity|]. rewrite Ec. reflexivity.
  - rewrite last_char_cons by discriminate. exact IH.
Qed.

Lemma lstrip_id s : first_ok s = true -> lstrip s = s.
Proof.
  destruct s as [|c s]; simpl; [reflexivity|].
  intros H. apply negb_true_iff in H. rewrite H. reflexivity.
Qed.

Lemma rstrip_id s : last_ok s = true -> rstrip s = s.
Proof.
  unfold last_ok. induction s as [|c s IH]; simpl; [reflexivity|].
  destruct s as [|d s].
  - simpl. intros H. apply negb_true_iff in H. rewrite H. reflexivity.
  - intros H. rewrite IH.
    + reflexivity.
    + destruct (last_char (String d s)) eqn:E; [exact H|].
      apply last_char_None in E. discriminate.
Qed.

Lemma last_char_lower s : last_char (lower s) = lower_char <$> last_char s.
Proof.
  induction s as [|c s IH]; simpl; [reflexivity|].
  rewrite IH. destruct (last_char s); reflexivity.
Qed.

Lemma lower_first_ok s : first_ok (lower s) = first_ok s.
Proof. destruct s as [|c s]; simpl; [reflexivity|]. rewrite is_space_lower. reflexivity. Qed.

Lemma lower_last_ok s : last_ok (lower s) = last_ok s.
Proof.
  unfold last_ok. rewrite last_char_lower.
  destruct (last_char s); simpl; [|reflexivity].
  rewrite is_space_lower. reflexivity.
Qed.

Lemma lower_lowered s : str_forall lowered (lower s) = true.
Proof.
  induction s as [|c s IH]; simpl; [reflexivity|].
  rewrite lowered_lower, IH. reflexivity.
Qed.

Lemma lower_id s : str_forall lowered s = true -> lower s = s.
Proof.
  induction s as [|c s IH]; simpl; [reflexivity|].
  intros [Hc Hs]%andb_true_iff. apply Ascii.eqb_eq in Hc.
  rewrite Hc, IH by assumption. reflexivity.
Qed.

(** [replace] by a one-character text that is not blank keeps both ends
    in order. *)
Lemma replace_first_ok old d s :
  is_space d = false -> first_ok s = true ->
  first_ok (replace old (String d "") s) = true.
Proof.
  intros Hd. destruct s as [|c s]; [reflexivity|]. unfold replace. simpl.
  intros Hc. destruct (startswith old (String c s)); simpl.
  - rewrite Hd. reflexivity.
  - exact Hc.
Qed.

Lemma replace_last_ok old d s :
  is_space d = false -> last_ok s = true ->
  last_ok (replace old (String d "") s) = true.
Proof.
  intros Hd Hs. unfold replace, last_ok in *.
  destruct (replace_go_last old (String d "") 0 s) as [H|[H|H]];
    [discriminate| | |]; rewrite H; simpl; [reflexivity|exact Hs|].
  rewrite Hd. reflexivity.
Qed.

Lemma sub_space_runs_id s :
  str_forall (is_not " ") s = true -> sub_space_runs s = s.
Proof.
  induction s as [|c s IH]; simpl; [reflexivity|].
  intros [Hc Hs]%andb_true_iff. unfold is_not in Hc.
  apply negb_true_iff in Hc. rewrite Hc. simpl.
  rewrite IH by assumption. reflexivity.
Qed.

Lemma clean_url_cleaned s : cleaned (clean_url s).
Proof.
  unfold clean_url.
  set (u := strip (sub_space_runs s)).
  assert (Hu : first_ok u = true /\ last_ok u = true).
  { split; [apply rstrip_first_ok, lstrip_first_ok|apply rstrip_last_ok]. }
  destruct Hu as [Hu1 Hu2]. repeat split.
  - unfold url_char. rewrite !str_forall_and. repeat (apply andb_true_iff; split).
    + do 3 (apply replace_go_forall; [reflexivity|]). apply lower_lowered.
    + do 2 (apply replace_go_forall; [reflexivity|]).
      apply replace_go_char_gone. reflexivity.
    + apply replace_go_char_gone. reflexivity.
  - repeat apply replace_first_ok; try reflexivity.
    rewrite lower_first_ok. exact Hu1.
  - repeat apply replace_last_ok; try reflexivity.
    rewrite lower_last_ok. exact Hu2.
Qed.

Lemma cleaned_fixed s : cleaned s -> clean_url s = s.
Proof.
  intros (Hc & H1 & H2). unfold url_char in Hc.
  rewrite !str_forall_and in Hc.
  apply andb_true_iff in Hc as [[Hl Hsp]%andb_true_iff Hbs].
  unfold clean_url, strip.
  rewrite (sub_space_runs_id s Hsp), (lstrip_id s H1), (rstrip_id s H2).
  rewrite (lower_id s Hl).
  rewrite (replace_absent " " "" "_" s Hsp).
  rewrite (replace_absent "\" "\" "/" s Hbs).
  apply (replace_absent "\" "" "/" s Hbs).
Qed.

(** C8. The URL normalizer is a total function on strings, it sends the
    empty string to the empty string, and normalizing twice is the same
    as normalizing once. *)
Theorem clean_url_idempotent :
  clean_url "" = "" /\ forall s, clean_url (clean_url s) = clean_url s.
Proof.
  split; [reflexivity|].
  intros s. apply cleaned_fixed, clean_url_cleaned.
Qed.

End CleanUrl.

(** ** The split stage *)

Section Split.

Implicit Types (s sep a b : string).

Lemma cut_unfold sep s :
  cut sep s =
  if startswith sep s then Some ("", drop (String.length sep) s)
  else match s with
       | "" => None
       | String c s' =>
           match cut sep s' with
           | Some (a, b) => Some (String c a, b)
           | None => None
           end
       end.
Proof. destruct s; reflexivity. Qed.

Lemma cut_Some sep s a b :
  cut sep s = Some (a, b) ->
  s = a ++ sep ++ b /\
  forall a' b', s = a' ++ sep ++ b' -> String.length a <= String.length a'.
Proof.
  revert a. induction s as [|c s IH]; intros a; rewrite cut_unfold.
  - destruct (startswith sep "") eqn:E; [|discriminate].
    intros [= <- <-]. apply startswith_spec in E as [t Ht].
    split; [|simpl; lia].
    destruct sep; [reflexivity|discriminate Ht].
  - destruct (startswith sep (String c s)) eqn:E.
    + intros [= <- <-]. apply startswith_spec in E as [t Ht].
      split; [|simpl; lia].
      rewrite Ht. rewrite drop_app_length. reflexivity.
    + destruct (cut sep s) as [[a0 b0]|] eqn:Ec; [|discriminate].
      intros [= <- <-]. destruct (IH a0 eq_refl) as [Hs Hmin]. split.
      * simpl. rewrite <- Hs. reflexivity.
      * intros a' b' H'. destruct a' as [|d a'].
        -- simpl in H'. rewrite H', startswith_refl in E. discriminate.
        -- simpl in H'. injection H' as _ H'. simpl.
           specialize (Hmin _ _ H'). lia.
Qed.

Lemma cut_None sep s :
  cut sep s = None -> forall a b, s <> a ++ sep ++ b.
Proof.
  induction s as [|c s IH]; rewrite cut_unfold.
  - destruct (startswith sep "") eqn:E; [discriminate|].
    intros _ a b H. destruct a; [|discriminate].
    simpl in H. rewrite H, startswith_refl in E. discriminate.
  - destruct (startswith sep (String c s)) eqn:E; [discriminate|].
    destruct (cut sep s) as [[a0 b0]|] eqn:Ec; [discriminate|].
    intros _ a b H. destruct a as [|d a].
    + simpl in H. rewrite H, startswith_refl in E. discriminate.
    + simpl in H. injection H as _ H. exact (IH eq_refl _ _ H).
Qed.

(** C4. The split stage divides the text at its first blank line into
    the metadata block and the body, and it fails (with the error of an
    unpacking that got one value) exactly when the text has no blank
    line. *)
Theorem split_raw_first_blank_line (pre : string) :
  ((exists m b, pre = m ++ LF ++ LF ++ b) ->
   exists m b,
     Processor.split_raw pre = Ok (m, b) /\
     pre = m ++ LF ++ LF ++ b /\
     forall m' b', pre = m' ++ LF ++ LF ++ b' ->
                   String.length m <= String.length m')
  /\ ((exists e, Processor.split_raw pre = Raise e) <->
      ~ exists m b, pre = m ++ LF ++ LF ++ b)
  /\ (forall e, Processor.split_raw pre = Raise e ->
                e = ValueError "not enough values to unpack").
Proof.
  unfold Processor.split_raw.
  destruct (cut (LF ++ LF) pre) as [[m b]|] eqn:E.
  - destruct (cut_Some _ _ _ _ E) as [Hs Hmin].
    split; [|split].
    + intros _. exists m, b. split; [reflexivity|]. split; [exact Hs|exact Hmin].
    + split; [intros [e He]; discriminate|].
      intros H. exfalso. apply H. exists m, b. exact Hs.
    + intros e He. discriminate.
  - pose proof (cut_None _ _ E) as Hn.
    split; [|split].
    + intros (m & b & H). exfalso. exact (Hn _ _ H).
    + split; [|intros _; eexists; reflexivity].
      intros _ (m & b & H). exact (Hn _ _ H).
    + intros e [= <-]. reflexivity.
Qed.

End Split.

(** ** The rating statistics of [process_meta] *)

Section Rating.

Context `{Externals}.

Import Processor.

Implicit Types (line key : string) (lines : list string).

Lemma int_field_Ok line v :
  int_field (words line) = Ok v -> field_of line = Some v.
Proof.
  unfold int_field, field_of.
  destruct (words line !! 1%nat) as [tok|]; [|discriminate].
  simpl. destruct (PyInt.parse tok); [|discriminate]. congruence.
Qed.

Lemma header_int_eq key lines :
  header_int key lines = last_line key lines ≫= field_of.
Proof. reflexivity. Qed.

Lemma scan_rating_step acc line acc1 :
  scan_rating acc line = Ok acc1 ->
  (if line_key line =? "total" then field_of line = Some (rate_Num acc1)
   else rate_Num acc1 = rate_Num acc) /\
  (if line_key line =? "timesrated"
   then field_of line = Some (times_rated acc1 - 1)%Z
   else times_rated acc1 = times_rated acc) /\
  (if line_key line =? "rating" then field_of line = Some (rated acc1)
   else rated acc1 = rated acc).
Proof.
  unfold scan_rating.
  destruct (line_key line =? "total") eqn:K1.
  { apply String.eqb_eq in K1. rewrite K1. simpl.
    destruct (int_field (words line)) as [v|] eqn:Ev; [|discriminate].
    intros [= <-]. simpl. repeat split. apply int_field_Ok, Ev. }
  destruct (line_key line =? "timesrated") eqn:K2.
  { apply String.eqb_eq in K2. rewrite K2. simpl.
    destruct (int_field (words line)) as [v|] eqn:Ev; [|discriminate].
    intros [= <-]. simpl. replace (v + 1 - 1)%Z with v by lia.
    repeat split. apply int_field_Ok, Ev. }
  destruct (line_key line =? "rating") eqn:K3.
  { destruct (int_field (words line)) as [v|] eqn:Ev; [|discriminate].
    intros [= <-]. simpl. repeat split. apply int_field_Ok, Ev. }
  intros [= <-]. auto.
Qed.

(** What the first loop leaves in its three variables. *)
Lemma scan_rating_spec acc lines acc' :
  rfold scan_rating acc lines = Ok acc' ->
  match last_line "total" lines with
  | Some _ => header_int "total" lines = Some (rate_Num acc')
  | None => rate_Num acc' = rate_Num acc
  end /\
  match last_line "timesrated" lines with
  | Some _ => header_int "timesrated" lines = Some (times_rated acc' - 1)%Z
  | None => times_rated acc' = times_rated acc
  end /\
  match last_line "rating" lines with
  | Some _ => header_int "rating" lines = Some (rated acc')
  | None => rated acc' = rated acc
  end.
Proof.
  revert acc. induction lines as [|line lines IH]; intros acc.
  - intros [= <-]. repeat split.
  - simpl rfold. destruct (scan_rating acc line) as [acc1|e] eqn:E1;
      [|discriminate].
    simpl. intros Hrest. destruct (IH _ Hrest) as (IH1 & IH2 & IH3).
    destruct (scan_rating_step _ _ _ E1) as (S1 & S2 & S3).
    rewrite !header_int_eq in *. simpl last_line.
    repeat split.
    + destruct (last_line "total" lines); [exact IH1|].
      destruct (line_key line =? "total"); simpl; congruence.
    + destruct (last_line "timesrated" lines); [exact IH2|].
      destruct (line_key line =? "timesrated"); simpl; congruence.
    + destruct (last_line "rating" lines); [exact IH3|].
      destruct (line_key line =? "rating"); simpl; congruence.
Qed.

Lemma last_line_None_header key lines :
  last_line key lines = None -> header_int key lines = None.
Proof. intros E. rewrite header_int_eq, E. reflexivity. Qed.

(** The pair the quotient is taken of. *)
Lemma rating_stats_spec meta_raw total n :
  rating_stats meta_raw = Ok (total, n) ->
  let lines := split LF meta_raw in
  total = (default 0 (header_int "rating" lines)
           + default 0 (header_int "total" lines))%Z
  /\ n = divisor lines.
Proof.
  intros Hs lines. unfold rating_stats in Hs. fold lines in Hs.
  destruct (rfold scan_rating (RatingAcc 0 1 0) lines) as [acc|] eqn:E;
    [|discriminate].
  injection Hs as <- <-.
  destruct (scan_rating_spec _ _ _ E) as (H1 & H2 & H3).
  unfold divisor. simpl in *. split.
  - f_equal.
    + destruct (last_line "rating" lines) eqn:L; [rewrite H3; reflexivity|].
      rewrite (last_line_None_header _ _ L). exact H3.
    + destruct (last_line "total" lines) eqn:L; [rewrite H1; reflexivity|].
      rewrite (last_line_None_header _ _ L). exact H1.
  - destruct (last_line "timesrated" lines) eqn:L.
    + rewrite H2. lia.
    + rewrite (last_line_None_header _ _ L). exact H2.
Qed.

Lemma reserved_cases key :
  reserved key = true -> key = "total" \/ key = "timesrated" \/ key = "rating".
Proof.
  unfold reserved. intros Hk.
  apply orb_true_iff in Hk as [Hk|Hk]; [apply orb_true_iff in Hk as [Hk|Hk]|];
    apply String.eqb_eq in Hk; auto.
Qed.

Lemma store_line_Meta total n avg Meta meta line Meta1 meta1 key :
  store_line total n avg (Meta, meta) line = Ok (Meta1, meta1) ->
  reserved key = true ->
  Meta1 !! key =
    if line_key line =? key then Some (stored total n avg key) else Meta !! key.
Proof.
  unfold store_line. intros Hs Hk.
  set (Meta2 := if line_key line =? "total" then _ else _) in Hs.
  destruct (Meta2 !! lower (line_key line)) as [v|]; [|discriminate].
  injection Hs as HM _. subst Meta1 Meta2.
  destruct (line_key line =? "total") eqn:K1.
  { apply String.eqb_eq in K1. rewrite K1.
    destruct (reserved_cases _ Hk) as [-> | [-> | ->]]; simpl;
      [apply lookup_insert_eq|apply lookup_insert_ne; discriminate..]. }
  destruct (line_key line =? "timesrated") eqn:K2.
  { apply String.eqb_eq in K2. rewrite K2.
    destruct (reserved_cases _ Hk) as [-> | [-> | ->]]; simpl;
      [apply lookup_insert_ne; discriminate|apply lookup_insert_eq
      |apply lookup_insert_ne; discriminate]. }
  destruct (line_key line =? "rating") eqn:K3.
  { apply String.eqb_eq in K3. rewrite K3.
    destruct (reserved_cases _ Hk) as [-> | [-> | ->]]; simpl;
      [apply lookup_insert_ne; discriminate..|apply lookup_insert_eq]. }
  destruct (reserved_cases _ Hk) as [-> | [-> | ->]]; rewrite ?K1, ?K2, ?K3;
    reflexivity.
Qed.

Lemma store_lines_Meta total n avg lines Meta meta Meta' meta' key :
  rfold (store_line total n avg) (Meta, meta) lines = Ok (Meta', meta') ->
  reserved key = true ->
  Meta' !! key =
    match last_line key lines with
    | Some _ => Some (stored total n avg key)
    | None => Meta !! key
    end.
Proof.
  intros Hf Hk. revert Meta meta Hf.
  induction lines as [|line lines IH]; intros Meta meta.
  - simpl. intros Heq. injection Heq as HM _. subst Meta'. reflexivity.
  - rewrite rfold_cons.
    destruct (store_line total n avg (Meta, meta) line) as [[Meta1 meta1]|]
      eqn:E1; [|discriminate].
    simpl. intros Hrest. rewrite (IH _ _ Hrest). simpl last_line.
    destruct (last_line key lines); [reflexivity|].
    rewrite (store_line_Meta _ _ _ _ _ _ _ _ _ E1 Hk).
    destruct (line_key line =? key); reflexivity.
Qed.

Lemma last_line_In key lines :
  In key (map line_key lines) -> is_Some (last_line key lines).
Proof.
  induction lines as [|line lines IH]; simpl; [contradiction|].
  intros [Hl|Hin].
  - destruct (last_line key lines); [eauto|].
    apply String.eqb_eq in Hl. rewrite Hl. eauto.
  - destruct (IH Hin) as [l ->]. eauto.
Qed.

(** C3 (amended). [process_meta] takes the quotient of [rating + total]
    (each 0 when the header has no such line) by one more than the
    header's [timesrated] (by 1 when the header has no such line), and
    for every one of the three keys the header carries it stores the text
    of the new total, of the new count and of the quotient in the
    renderer's metadata. *)
Theorem process_meta_rating meta_raw Meta Meta' meta :
  process_meta meta_raw Meta = Ok (Meta', meta) ->
  let lines := split LF meta_raw in
  let total := (default 0 (header_int "rating" lines)
                + default 0 (header_int "total" lines))%Z in
  let n := divisor lines in
  exists avg,
    n <> 0%Z /\ float_str total n = Some avg /\
    (In "total" (map line_key lines) ->
     Meta' !! "total" = Some (MStr (lower (PyInt.to_str total)))) /\
    (In "timesrated" (map line_key lines) ->
     Meta' !! "timesrated" = Some (MStr (lower (PyInt.to_str n)))) /\
    (In "rating" (map line_key lines) ->
     Meta' !! "rating" = Some (MStr (lower avg))).
Proof.
  intros Hp lines total n. unfold process_meta in Hp.
  destruct (rating_stats meta_raw) as [[total' n']|] eqn:Es; [|discriminate].
  destruct (rating_stats_spec _ _ _ Es) as [Ht Hn].
  fold lines in Ht, Hn. fold total in Ht. fold n in Hn. subst total' n'.
  simpl in Hp. destruct (n =? 0)%Z eqn:En; [discriminate|].
  destruct (float_str total n) as [avg|] eqn:Ef; [|discriminate].
  simpl in Hp. fold lines in Hp. exists avg.
  split; [apply Z.eqb_neq, En|]. split; [reflexivity|].
  repeat split; intros Hin; apply last_line_In in Hin as [l Hl].
  - rewrite (store_lines_Meta _ _ _ _ _ _ _ _ "total" Hp eq_refl), Hl.
    reflexivity.
  - rewrite (store_lines_Meta _ _ _ _ _ _ _ _ "timesrated" Hp eq_refl), Hl.
    reflexivity.
  - rewrite (store_lines_Meta _ _ _ _ _ _ _ _ "rating" Hp eq_refl), Hl.
    reflexivity.
Qed.

End Rating.

Lemma process_meta_rating_witness :
  match Processor.process_meta (H := Sample.externals) rated_header rated_Meta
  with
  | Ok (Meta', _) =>
      Meta' !! "total" = Some (MStr "6") /\
      Meta' !! "timesrated" = Some (MStr "2") /\
      Meta' !! "rating" = Some (MStr "3.0")
  | Raise _ => False
  end.
Proof.
  destruct (Processor.process_meta (H := Sample.externals) rated_header
              rated_Meta) as [[Meta' meta]|e] eqn:E.
  - destruct (process_meta_rating (H := Sample.externals) _ _ _ _ E)
      as (avg & _ & Hq & Ht & Hn & Hr).
    vm_compute in Hq. injection Hq as <-.
    split; [|split].
    + apply Ht. vm_compute. auto.
    + apply Hn. vm_compute. auto.
    + apply Hr. vm_compute. auto.
  - assert (Hok : is_ok (Processor.process_meta (H := Sample.externals)
                          rated_header rated_Meta) = true)
      by (vm_compute; reflexivity).
    rewrite E in Hok. discriminate Hok.
Defined.

(** C3 as stated fails: with [timesrated: 1] in the header the quotient
    is taken by 2, not by the header's count. *)
Lemma process_meta_divisor_counterexample :
  exists total n,
    Processor.rating_stats rated_header = Ok (total, n) /\
    (total, n) = (6, 2)%Z /\
    n <> spec_divisor (split LF rated_header).
Proof.
  exists 6%Z, 2%Z. split; [reflexivity|]. split; [reflexivity|].
  vm_compute. discriminate.
Qed.

(** The page's own mapping receives the stored text joined character by
    character. *)
Example process_meta_sample :
  match Processor.process_meta (H := Sample.externals) rated_header rated_Meta
  with
  | Ok (_, meta) => meta
  | Raise _ => []
  end
  = [("total", "6"); ("timesrated", "2");
     ("rating", "3" ++ LF ++ "." ++ LF ++ "0")].
Proof. vm_compute. reflexivity. Qed.

(** ** The history store *)

Section StringOrder.

Lemma ascii_compare_N (a b : ascii) :
  Ascii.compare a b = N.compare (N_of_ascii a) (N_of_ascii b).
Proof. reflexivity. Qed.

Lemma string_compare_trans (a b c : string) :
  String.compare a b <> Gt -> String.compare b c <> Gt ->
  String.compare a c <> Gt.
Proof.
  revert b c. induction a as [|x a IH]; intros [|y b] [|z c]; simpl;
    try congruence.
  destruct (Ascii.compare x y) eqn:Exy; [|clear IH|congruence].
  - apply Ascii.compare_eq_iff in Exy as ->.
    destruct (Ascii.compare y z); [apply IH|congruence..].
  - intros _. rewrite ascii_compare_N in Exy.
    destruct (Ascii.compare y z) eqn:Eyz; [| |congruence].
    + apply Ascii.compare_eq_iff in Eyz as <-. intros _.
      rewrite ascii_compare_N, Exy. congruence.
    + intros _. rewrite ascii_compare_N in Eyz.
      rewrite ascii_compare_N.
      change (N_of_ascii x < N_of_ascii y)%N in Exy.
      change (N_of_ascii y < N_of_ascii z)%N in Eyz.
      assert (Hlt : (N_of_ascii x < N_of_ascii z)%N) by lia.
      unfold N.lt in Hlt. rewrite Hlt. congruence.
Qed.

Lemma leb_not_Gt (a b : string) : String.leb a b = true <-> String.compare a b <> Gt.
Proof. unfold String.leb. destruct (String.compare a b); split; congruence. Qed.

#[global] Instance str_ge_trans : Transitive str_ge.
Proof.
  intros a b c Hab Hbc. unfold str_ge in *. rewrite leb_not_Gt in *.
  exact (string_compare_trans c b a Hbc Hab).
Qed.

#[global] Instance str_ge_total : Total str_ge.
Proof. intros a b. unfold str_ge. destruct (String.leb_total a b); auto. Qed.

End StringOrder.

Section HistoryFacts.

Context {fl : Flavour} {ext : Externals}.

Lemma save_Ok user version d k h f h' f' :
  History.save user version d k (h, f) = (Ok tt, (h', f')) ->
  h' = History.Make (History.url h) (History.path h)
         (<[inr k := Entry user (strftime d) version]> (History.entries h))
         (History.entryKeys h).
Proof.
  unfold History.save, mbind, M_bind, gets, on_snd, put_state. simpl.
  destruct (Os.write_file (History.path h) "" f) as [[[]|e] f1]; [|discriminate].
  simpl.
  match goal with
  | |- context [Os.write_file ?p ?c f1] =>
      destruct (Os.write_file p c f1) as [[[]|e] f2]
  end; [|discriminate].
  intros [= <- _]. reflexivity.
Qed.

Lemma save_all_spec calls h f h' f' :
  save_all calls (h, f) = (Ok tt, (h', f')) ->
  NoDup (call_key <$> calls) ->
  (forall c, c ∈ calls -> History.entries h !! inr (call_key c) = None) ->
  size (History.entries h') = length calls + size (History.entries h) /\
  (forall k e, History.entries h !! k = Some e ->
               History.entries h' !! k = Some e) /\
  (forall c, c ∈ calls -> History.entries h' !! inr (call_key c) = Some (saved c)) /\
  History.entryKeys h' = History.entryKeys h.
Proof.
  revert h f. induction calls as [|c calls IH]; intros h f.
  - intros [= <- <-] _ _. repeat split; auto. intros c Hc. inversion Hc.
  - simpl save_all. unfold mbind, M_bind.
    destruct (History.save _ _ _ _ (h, f)) as [[[]|e] [h1 f1]] eqn:E1;
      [|discriminate].
    intros Hrest Hnd Hfresh. apply save_Ok in E1.
    simpl in Hnd. apply NoDup_cons in Hnd as [Hc Hnd].
    assert (Hfresh1 : forall c', c' ∈ calls ->
              History.entries h1 !! inr (call_key c') = None).
    { intros c' Hc'. subst h1. simpl. rewrite lookup_insert_ne.
      - apply Hfresh. right. exact Hc'.
      - intros [= Heq]. apply Hc. rewrite Heq.
        apply list_elem_of_fmap. exists c'. auto. }
    destruct (IH _ _ Hrest Hnd Hfresh1) as (Hsize & Hold & Hnew & Hkeys).
    assert (Hc0 : History.entries h !! inr (call_key c) = None).
    { apply Hfresh. left. }
    repeat split.
    + rewrite Hsize. subst h1. simpl.
      rewrite map_size_insert_None by exact Hc0. lia.
    + intros k e Hk. apply Hold. subst h1. simpl.
      rewrite lookup_insert_ne; [exact Hk|]. intros <-. congruence.
    + intros c' Hc'. apply elem_of_cons in Hc' as [->|Hc']; [|auto].
      apply Hold. subst h1. simpl. apply lookup_insert_eq.
    + rewrite Hkeys. subst h1. reflexivity.
Qed.

Lemma init_Ok path url f h f' :
  History.init path url f = (Ok h, f') ->
  exists doc,
    History.entries h = kmap inl doc /\
    History.entryKeys h = inl <$> sorted_desc (elements (dom doc)).
Proof.
  unfold History.init, mbind, M_bind.
  destruct (Os.exists_ path f) as [[present|e] f1]; [|discriminate].
  destruct ((if negb present then History.create path else mret tt) f1)
    as [[[]|e] f2]; [|discriminate].
  destruct (Os.read_file path f2) as [[text|e] f3]; [|discriminate].
  destruct (json_load text) as [doc|]; [|discriminate].
  intros [= <- _]. exists doc. split; reflexivity.
Qed.

(** C2 (amended). On one [History] object, calls of [save] whose
    timestamps differ from one another add one entry each to the entries
    loaded at construction and leave every earlier entry as it was;
    [entryKeys] is the list of the loaded keys in descending order, and
    [save] does not change it. *)
Theorem history_append_only path url f0 h0 f1 calls h f :
  History.init path url f0 = (Ok h0, f1) ->
  save_all calls (h0, f1) = (Ok tt, (h, f)) ->
  NoDup (call_key <$> calls) ->
  size (History.entries h) = length calls + size (History.entries h0) /\
  (forall k e, History.entries h0 !! k = Some e ->
               History.entries h !! k = Some e) /\
  (forall c, c ∈ calls ->
             History.entries h !! inr (call_key c) = Some (saved c)) /\
  History.entryKeys h = History.entryKeys h0 /\
  exists keys,
    History.entryKeys h0 = inl <$> keys /\
    StronglySorted str_ge keys /\ NoDup keys /\
    forall k, inl k ∈ History.entryKeys h0 <-> is_Some (History.entries h0 !! inl k).
Proof.
  intros Hinit Hsave Hnd.
  destruct (init_Ok _ _ _ _ _ Hinit) as (doc & Hent & Hkeys).
  assert (Hfresh : forall c, c ∈ calls ->
            History.entries h0 !! inr (call_key c) = None).
  { intros c _. rewrite Hent. apply lookup_kmap_None; [apply _|].
    intros s [=]. }
  destruct (save_all_spec _ _ _ _ _ Hsave Hnd Hfresh) as (H1 & H2 & H3 & H4).
  repeat split; try assumption.
  exists (sorted_desc (elements (dom doc))). split; [exact Hkeys|].
  unfold sorted_desc. split; [apply StronglySorted_merge_sort; apply _|].
  split.
  - rewrite merge_sort_Permutation. apply NoDup_elements.
  - intros k. rewrite Hkeys, Hent. unfold sorted_desc.
    rewrite (lookup_kmap inl doc k).
    rewrite list_elem_of_fmap. split.
    + intros (s & [= ->] & Hs). rewrite merge_sort_Permutation in Hs.
      apply elem_of_elements, elem_of_dom in Hs. exact Hs.
    + intros Hs. exists k. split; [reflexivity|].
      rewrite merge_sort_Permutation. apply elem_of_elements, elem_of_dom, Hs.
Qed.

End HistoryFacts.

Lemma history_append_only_witness :
  match History.init (fl := nt) (ext := Sample.externals)
          "wiki/history/hello.json" "hello" nt_fs with
  | (Ok h0, f1) =>
      match save_all (fl := nt) (ext := Sample.externals) two_calls (h0, f1)
      with
      | (Ok _, (h, _)) =>
          size (History.entries h) = 2 + size (History.entries h0) /\
          History.entryKeys h = History.entryKeys h0
      | _ => False
      end
  | _ => False
  end.
Proof.
  destruct (History.init (fl := nt) (ext := Sample.externals)
              "wiki/history/hello.json" "hello" nt_fs) as [[h0|e] f1] eqn:E0.
  - destruct (save_all (fl := nt) (ext := Sample.externals) two_calls (h0, f1))
      as [[[]|e] [h f]] eqn:E1.
    + assert (Hnd : NoDup (call_key <$> two_calls)).
      { apply (bool_decide_unpack _). vm_compute. exact I. }
      destruct (history_append_only (fl := nt) (ext := Sample.externals)
                  _ _ _ _ _ _ _ _ E0 E1 Hnd) as (Hsize & _ & _ & Hkeys & _).
      split; [exact Hsize|exact Hkeys].
    + assert (Hok : match History.init (fl := nt) (ext := Sample.externals)
                            "wiki/history/hello.json" "hello" nt_fs with
                    | (Ok h0, f1) =>
                        is_ok (fst (save_all (fl := nt)
                                      (ext := Sample.externals) two_calls
                                      (h0, f1)))
                    | _ => false
                    end = true) by (vm_compute; reflexivity).
      rewrite E0, E1 in Hok. discriminate Hok.
  - assert (Hok : is_ok (fst (History.init (fl := nt)
                                (ext := Sample.externals)
                                "wiki/history/hello.json" "hello" nt_fs))
                  = true) by (vm_compute; reflexivity).
    rewrite E0 in Hok. discriminate Hok.
Defined.

(** C2 as stated fails: after a [save] on the object, [entryKeys] still
    is the list made at construction and lacks the new key. *)
Lemma history_entryKeys_counterexample :
  (fun h => (History.entries h !! inr 100%Z, History.entryKeys h))
    <$> after_one_save
  = Some (Some (Entry "ann" "10" "first"), []).
Proof. vm_compute. reflexivity. Qed.

(** ** [move] and the content root *)

Section Move.

Context {fl : Flavour}.

Import OsPath.

(** The guard of [move] compares texts: it lets a target through exactly
    when the normalized root is a prefix of the normalized target,
    whether or not the prefix ends a path component. *)
Lemma commonprefix_length (a b : string) :
  (String.length (commonprefix a b) <? String.length a)%nat
  = negb (startswith a b).
Proof.
  revert b. induction a as [|c a IH]; intros b; [rewrite startswith_nil; reflexivity|].
  destruct b as [|d b]; [reflexivity|].
  rewrite startswith_cons. simpl.
  destruct (Ascii.eqb c d) eqn:E.
  - apply Ascii.eqb_eq in E as ->.
    rewrite bool_decide_eq_true_2 by reflexivity. simpl. apply IH.
  - apply Ascii.eqb_neq in E. rewrite bool_decide_eq_false_2 by assumption.
    reflexivity.
Qed.

(** When the guard rejects the target, [move] raises before it touches
    the file system. *)
Lemma move_guard (w : Wiki.t) (url newurl : string) (f : fs) :
  startswith (normpath (Wiki.root w))
             (normpath (join (Wiki.root w) newurl ++ ".md")) = false ->
  Wiki.move w url newurl f
  = (Raise (RuntimeError
              ("Possible write attempt outside content directory: " ++ newurl)),
     f).
Proof.
  intros Hp. unfold Wiki.move. rewrite commonprefix_length, Hp. reflexivity.
Qed.

End Move.

(** C1 (the code departs from it). With the root [/wiki] the target
    [../wiki2/x] normalizes to [/wiki2/x.md], outside the root; the guard
    lets it through because [/wiki] is a prefix of that text, and the
    page file is moved out of the content root. *)
Theorem move_prefix_escape :
  let w := Wiki.Make "/wiki" in
  let r := Wiki.move (fl := posix) w "hello" "../wiki2/x" posix_fs in
  OsPath.normpath (fl := posix) (OsPath.join (fl := posix) "/wiki" "../wiki2/x" ++ ".md")
  = "/wiki2/x.md" /\
  fst r = Ok tt /\
  files (snd r) !! "/wiki2/x.md" = Some hello_text /\
  files (snd r) !! "/wiki/hello.md" = None /\
  bool_decide ("/wiki2" ∈ dirs (snd r)) = true.
Proof. vm_compute. repeat split. Qed.

(** A target that is no textual extension of the root is refused, and
    nothing changes. *)
Example move_refused :
  Wiki.move (fl := posix) (Wiki.Make "/wiki") "hello" "../etc/passwd" posix_fs
  = (Raise (RuntimeError
              "Possible write attempt outside content directory: ../etc/passwd"),
     posix_fs).
Proof. apply move_guard. reflexivity. Qed.

(** ** [wikilink] *)

(** C5 (the code departs from it). A link inside a code span is left
    alone only when [<code>] stands right before the brackets; after any
    other character of the span it is rewritten.  A target of one
    character is not rewritten at all. *)
Theorem wikilink_inside_code_span :
  wikilink slash_url "<code>x [[Foo]]</code>"
  = Ok "<code>x <a href='/foo'>Foo</a></code>" /\
  wikilink slash_url "<code>[[Foo]]</code>" = Ok "<code>[[Foo]]</code>" /\
  wikilink slash_url "see [[a]]." = Ok "see [[a]].".
Proof. vm_compute. repeat split. Qed.

(** Outside code the two forms are rewritten, blanks around the bar and
    before the closing brackets dropped. *)
Example wikilink_rewrites :
  wikilink slash_url "see [[Foo Bar]] and [[a/b | The Name ]]"
  = Ok "see <a href='/foo_bar'>Foo Bar</a> and <a href='/a/b'>The Name</a>".
Proof. vm_compute. reflexivity. Qed.

(** ** The path mapping *)

Section PathMapping.

Import OsPath.





End PathMapping.



(** ** [delete] *)

Section Delete.

Context {fl : Flavour} {ext : Externals}.

Lemma is_file_Some (f : fs) (k : string) :
  Os.is_file f k = true <-> is_Some (files f !! k).
Proof. unfold Os.is_file. apply bool_decide_eq_true. Qed.

Lemma read_file_Ok (p : string) (f : fs) (text : string) (f' : fs) :
  Os.read_file p f = (Ok text, f') ->
  f' = f /\ p <> "" /\ Os.is_file f (Os.abspath f p) = true.
Proof.
  unfold Os.read_file. destruct (p =? "") eqn:Ep; [discriminate|].
  apply String.eqb_neq in Ep.
  destruct (files f !! Os.abspath f p) as [c|] eqn:Ec.
  - intros [= _ <-]. repeat split; [exact Ep|].
    apply is_file_Some. rewrite Ec. eauto.
  - destruct (Os.is_dir f (Os.abspath f p)); discriminate.
Qed.

Lemma write_file_Ok (p content : string) (f f' : fs) :
  Os.write_file p content f = (Ok tt, f') ->
  f' = FS (cwd f) (<[Os.abspath f p := Os.line_ends content]> (files f)) (dirs f).
Proof.
  unfold Os.write_file, mbind, M_bind, Os.check_writable, get_state, put_state.
  destruct (p =? ""); [discriminate|].
  destruct (Os.is_dir f (Os.abspath f p)); [discriminate|].
  destruct (Os.is_dir f (OsPath.dirname (Os.abspath f p))).
  - intros [= <-]. reflexivity.
  - destruct (Os.is_file f (OsPath.dirname (Os.abspath f p))); discriminate.
Qed.

(** What a finished [History.__init__] tells about the file system. *)
Lemma history_init_inv (p url : string) (f : fs) (h : History.t) (f1 : fs) :
  History.init p url f = (Ok h, f1) ->
  History.path h = p /\ cwd f1 = cwd f /\ dirs f1 = dirs f /\ p <> "" /\
  Os.is_file f1 (Os.abspath f p) = true /\
  forall k, k <> Os.abspath f p -> files f1 !! k = files f !! k.
Proof.
  unfold History.init, mbind, M_bind.
  change (Os.exists_ p f) with
    (Ok (negb (p =? "")
         && (Os.is_file f (Os.abspath f p) || Os.is_dir f (Os.abspath f p))), f).
  cbv beta iota.
  set (present := negb (p =? "") && _).
  destruct present.
  - simpl. destruct (Os.read_file p f) as [[text|e] f2] eqn:Er; [|discriminate].
    apply read_file_Ok in Er as (-> & Hp & Hfile).
    destruct (json_load text); [|discriminate].
    intros [= <- <-]. repeat split; auto.
  - simpl. unfold History.create.
    destruct (Os.write_file p ("{}" ++ LF) f) as [[[]|e] f2] eqn:Ew;
      [|discriminate].
    apply write_file_Ok in Ew. subst f2.
    match goal with
    | |- context [Os.read_file p ?g] =>
        destruct (Os.read_file p g) as [[text|e] f3] eqn:Er; [|discriminate]
    end.
    apply read_file_Ok in Er as (-> & Hp & Hfile).
    destruct (json_load text); [|discriminate].
    intros [= <- <-]. simpl. repeat split; auto.
    intros k Hk. simpl. apply lookup_insert_ne. congruence.
Qed.

(** What a finished [Page.__init__] of an existing page tells. *)
Lemma page_init_inv (p url : string) (f : fs) (pg : Page.t) (f1 : fs) :
  Page.init p url false f = (Ok pg, f1) ->
  exists h,
    History.init (Page.history_path p url) url f = (Ok h, f1) /\
    Page.history pg = h /\ p <> "" /\
    Os.is_file f1 (Os.abspath f1 p) = true.
Proof.
  unfold Page.init, mbind, M_bind.
  destruct (History.init (Page.history_path p url) url f) as [[h|e] f2] eqn:Eh;
    [|discriminate].
  unfold Page.load, Page.render, mbind, M_bind, gets, on_snd, put_state,
    lift_result, raise. simpl.
  destruct (Os.read_file p f2) as [[text|e] f3] eqn:Er; [|discriminate].
  apply read_file_Ok in Er as (-> & Hp & Hfile). simpl.
  destruct (Processor.process text) as [[[html body] meta]|e]; [|discriminate].
  simpl. intros [= <- <-]. exists h. repeat split; assumption.
Qed.

Lemma abspath_cwd (f g : fs) (p : string) :
  cwd f = cwd g -> Os.abspath f p = Os.abspath g p.
Proof. intros E. unfold Os.abspath. rewrite E. reflexivity. Qed.

Lemma remove_Ok (p : string) (f : fs) :
  p <> "" -> Os.is_file f (Os.abspath f p) = true ->
  Os.remove p f
  = (Ok tt, FS (cwd f) (delete (Os.abspath f p) (files f)) (dirs f)).
Proof.
  intros Hp Hf. unfold Os.remove. apply String.eqb_neq in Hp.
  rewrite Hp, Hf. reflexivity.
Qed.

(** C7 (amended). [delete] returns false and leaves the file system as
    it is when nothing exists at the content path.  When the page at the
    content path can be constructed (the content file is there, its
    history file decodes, its text splits and renders), and the history
    file is not the content file itself, [delete] removes the history
    file and the content file, touches no other file that was there, and
    returns true. *)
Theorem delete_spec (w : Wiki.t) (url : string) (f : fs) :
  (fst (Wiki.exists_ w url f) = Ok false ->
   Wiki.delete w url f = (Ok false, f)) /\
  (forall pg f1,
     Page.init (Wiki.path w url) url false f = (Ok pg, f1) ->
     Os.abspath f (History.path (Page.history pg))
     <> Os.abspath f (Wiki.path w url) ->
     fst (Wiki.exists_ w url f) = Ok true /\
     exists f2,
       Wiki.delete w url f = (Ok true, f2) /\
       files f2 !! Os.abspath f (Wiki.path w url) = None /\
       files f2 !! Os.abspath f (History.path (Page.history pg)) = None /\
       forall k, k <> Os.abspath f (Wiki.path w url) ->
                 k <> Os.abspath f (History.path (Page.history pg)) ->
                 files f2 !! k = files f !! k).
Proof.
  split.
  - intros Hex. unfold Wiki.exists_, Os.exists_ in Hex. simpl in Hex.
    injection Hex as Hex.
    unfold Wiki.delete, Wiki.get, Wiki.exists_, Os.exists_, mbind, M_bind,
      mret, M_ret.
    rewrite Hex. simpl. rewrite Hex. reflexivity.
  - intros pg f1 Hinit Hne.
    destruct (page_init_inv _ _ _ _ _ Hinit) as (h & Hh & Hph & Hpne & Hfile).
    destruct (history_init_inv _ _ _ _ _ Hh)
      as (Hp & Hcwd & Hdirs & Hhp & Hhf & Hrest).
    assert (Habs : forall p, Os.abspath f1 p = Os.abspath f p).
    { intros p. apply abspath_cwd, Hcwd. }
    rewrite Hph in *. rewrite Hp in *. rewrite Habs in Hfile.
    set (kp := Os.abspath f (Wiki.path w url)) in *.
    set (kh := Os.abspath f (Page.history_path (Wiki.path w url) url)) in *.
    apply String.eqb_neq in Hpne.
    assert (Hfile0 : Os.is_file f kp = true).
    { apply is_file_Some. rewrite <- Hrest by congruence.
      apply is_file_Some, Hfile. }
    assert (Hex : negb (Wiki.path w url =? "")
                  && (Os.is_file f kp || Os.is_dir f kp) = true).
    { rewrite Hpne, Hfile0. reflexivity. }
    split; [unfold Wiki.exists_, Os.exists_; simpl; fold kp; rewrite Hex;
            reflexivity|].
    exists (FS (cwd f1) (delete kp (delete kh (files f1))) (dirs f1)).
    split; [|split; [|split]].
    + unfold Wiki.delete, Wiki.get, mbind, M_bind.
      unfold Wiki.exists_ at 1. unfold Os.exists_ at 1. fold kp.
      rewrite Hex, Hinit.
      unfold mret, M_ret.
      unfold Wiki.exists_, Os.exists_. rewrite !Habs. fold kp.
      rewrite Hpne, Hfile. simpl.
      rewrite Hph, Hp.
      rewrite remove_Ok; [|exact Hhp|rewrite Habs; exact Hhf].
      rewrite Habs. fold kh. simpl.
      rewrite remove_Ok.
      * rewrite (abspath_cwd _ f) by exact Hcwd. reflexivity.
      * apply String.eqb_neq, Hpne.
      * rewrite (abspath_cwd _ f) by exact Hcwd. fold kp.
        apply is_file_Some. simpl.
        rewrite lookup_delete_ne by (intros E; apply Hne; exact E).
        apply is_file_Some, Hfile.
    + simpl. apply lookup_delete_eq.
    + simpl. rewrite lookup_delete_ne by (intros E; apply Hne; symmetry; exact E).
      apply lookup_delete_eq.
    + intros k Hk1 Hk2. simpl.
      rewrite !lookup_delete_ne by congruence. apply Hrest. exact Hk2.
Qed.

End Delete.

Lemma delete_spec_witness :
  Wiki.delete (fl := nt) (ext := Sample.externals) wiki "absent" nt_fs
  = (Ok false, nt_fs) /\
  match Page.init (fl := nt) (ext := Sample.externals)
          (Wiki.path (fl := nt) wiki "hello") "hello" false nt_fs with
  | (Ok pg, _) =>
      exists f2,
        Wiki.delete (fl := nt) (ext := Sample.externals) wiki "hello" nt_fs
        = (Ok true, f2) /\
        files f2 !! "\wiki\hello.md" = None /\
        files f2 !! "\wiki\history\hello.json" = None
  | _ => False
  end.
Proof.
  split.
  - apply (proj1 (delete_spec (fl := nt) (ext := Sample.externals)
                    wiki "absent" nt_fs)).
    reflexivity.
  - destruct (Page.init (fl := nt) (ext := Sample.externals)
                (Wiki.path (fl := nt) wiki "hello") "hello" false nt_fs)
      as [[pg|e] f1] eqn:E.
    + destruct (page_init_inv _ _ _ _ _ E) as (h & Hh & Hph & _).
      destruct (history_init_inv _ _ _ _ _ Hh) as (Hp & _).
      assert (Hpath : History.path (Page.history pg) = "wiki/history/hello.json").
      { rewrite Hph, Hp. reflexivity. }
      destruct (proj2 (delete_spec (fl := nt) (ext := Sample.externals)
                         wiki "hello" nt_fs) pg f1 E)
        as (_ & f2 & Hdel & Hc & Hj & _).
      { rewrite Hpath. vm_compute. discriminate. }
      exists f2. rewrite Hpath in Hj. auto.
    + assert (Hok : is_ok (fst (Page.init (fl := nt) (ext := Sample.externals)
                                  (Wiki.path (fl := nt) wiki "hello") "hello"
                                  false nt_fs)) = true)
        by (vm_compute; reflexivity).
      rewrite E in Hok. discriminate Hok.
Defined.

(** C7 as stated fails: the content file exists, and [delete] raises the
    error of the split stage instead of removing it. *)
Lemma delete_counterexample :
  let r := Wiki.delete (fl := nt) (ext := Sample.externals) wiki "bad" nt_fs_bad in
  fst (Wiki.exists_ (fl := nt) wiki "bad" nt_fs_bad) = Ok true /\
  fst r = Raise (ValueError "not enough values to unpack") /\
  files (snd r) !! "\wiki\bad.md" = Some "no blank line".
Proof. vm_compute. repeat split. Qed.

(** Joined by the slash, the history path of a page is its content path,
    so the constructor hands the page text to the JSON decoder. *)
Example delete_posix :
  fst (Wiki.delete (fl := posix) (ext := Sample.externals) (Wiki.Make "/wiki")
         "hello" posix_fs)
  = Raise JSONDecodeError.
Proof. vm_compute. reflexivity. Qed.

(** ** [index_by] *)

Section IndexBy.

Lemma dict_set_None (k v : Page.attr) (x : pyval) (d : list (Page.attr * pyval)) :
  dict_get v (dict_set k PNone d) = Some x ->
  x = PNone \/ dict_get v d = Some x.
Proof.
  induction d as [|[k' v'] d IH]; simpl.
  - destruct (decide (k = v)); [left; congruence|discriminate].
  - destruct (decide (k' = k)) as [->|Hk]; simpl.
    + destruct (decide (k = v)); [left; congruence|right; assumption].
    + destruct (decide (k' = v)); [right; assumption|exact IH].
Qed.

(** The loop of [index_by] never stores a list: [list.append] returns
    [None], and that is what every key is bound to. *)
Lemma group_pages_None (key : string) (pages : list Page.t)
    (d0 d : list (Page.attr * pyval)) :
  (forall v x, dict_get v d0 = Some x -> x = PNone) ->
  rfold (Wiki.group_page key) d0 pages = Ok d ->
  forall v x, dict_get v d = Some x -> x = PNone.
Proof.
  revert d0. induction pages as [|page pages IH]; intros d0 Hd0.
  - simpl. intros [= <-]. exact Hd0.
  - rewrite rfold_cons.
    destruct (Wiki.group_page key d0 page) as [d1|e] eqn:E; [|discriminate].
    simpl. apply IH. clear IH.
    unfold Wiki.group_page in E.
    destruct (Page.getattr page key) as [value|]; [|discriminate].
    simpl in E.
    destruct (default (PList []) (dict_get value d0)); [discriminate|].
    injection E as <-.
    intros v x Hx. destruct (dict_set_None _ _ _ _ Hx); auto.
    eapply Hd0; eassumption.
Qed.

(** A second page with the value of an earlier one finds [None] under
    the key and fails on [None.append]. *)
Lemma group_page_again (key : string) (page : Page.t) (value : Page.attr)
    (d : list (Page.attr * pyval)) :
  Page.getattr page key = Ok value -> dict_get value d = Some PNone ->
  Wiki.group_page key d page = Raise (AttributeError "append").
Proof.
  intros Hv Hd. unfold Wiki.group_page. rewrite Hv. simpl. rewrite Hd.
  reflexivity.
Qed.

End IndexBy.

(** C9 (the code departs from it). With one page in the index the value
    of its attribute is bound to [None], not to a list holding the page;
    with two pages that share the value the loop stops on
    [None.append]. *)
Theorem index_by_binds_None :
  fst (Wiki.index_by (fl := nt) (ext := Sample.externals) wiki "title" nt_fs)
  = Ok [(Page.AStr "Hello", PNone)] /\
  fst (Wiki.index_by (fl := nt) (ext := Sample.externals) wiki "tags"
         nt_fs_tagged)
  = Raise (AttributeError "append").
Proof. vm_compute. repeat split. Qed.

(** ** [Page.save] *)

Section Save.

Context {fl : Flavour} {ext : Externals}.

(** A file that could be opened for writing before another file was
    written can still be opened afterwards. *)
Lemma check_writable_run (p : string) (f : fs) :
  is_ok (fst (Os.check_writable p f)) = true ->
  forall fm, Os.check_writable p (FS (cwd f) fm (dirs f))
             = (Ok (Os.abspath f p), FS (cwd f) fm (dirs f)).
Proof.
  unfold Os.check_writable, Os.abspath, Os.is_dir. simpl.
  destruct (p =? ""); [discriminate|].
  destruct ((_ =? OsPath.sep_str) || bool_decide (_ ∈ dirs f)); [discriminate|].
  destruct ((_ =? OsPath.sep_str) || bool_decide (_ ∈ dirs f)); [reflexivity|].
  destruct (Os.is_file f _); discriminate.
Qed.

Lemma write_file_run (p content : string) (f : fs) :
  is_ok (fst (Os.check_writable p f)) = true ->
  forall fm, Os.write_file p content (FS (cwd f) fm (dirs f))
             = (Ok tt, FS (cwd f) (<[Os.abspath f p := Os.line_ends content]> fm)
                          (dirs f)).
Proof.
  intros Hw fm. unfold Os.write_file, mbind, M_bind.
  rewrite (check_writable_run p f Hw fm). reflexivity.
Qed.

Lemma process_no_blank_line (text : string) :
  contains (LF ++ LF) text = false ->
  Processor.process text = Raise (ValueError "not enough values to unpack").
Proof.
  unfold contains, Processor.process, Processor.process_pre,
    Processor.preprocessors, Processor.split_raw. simpl fold_left.
  destruct (cut (LF ++ LF) text); [discriminate|]. reflexivity.
Qed.

Lemma bind_Ok {S A B} (m : M S A) (k : A -> M S B) (s s' : S) (a : A) :
  m s = (Ok a, s') -> (m ≫= k) s = k a s'.
Proof. intros E. unfold mbind, M_bind. rewrite E. reflexivity. Qed.

Lemma bind_Raise {S A B} (m : M S A) (k : A -> M S B) (s s' : S) (e : exn) :
  m s = (Raise e, s') -> (m ≫= k) s = (Raise e, s').
Proof. intros E. unfold mbind, M_bind. rewrite E. reflexivity. Qed.

Lemma on_snd_run {S T A} (m : M T A) (x : S) (t t' : T) (r : result A) :
  m t = (r, t') -> on_snd m (x, t) = (r, (x, t')).
Proof. intros E. unfold on_snd. simpl. rewrite E. reflexivity. Qed.

Lemma history_save_run (h : History.t) (user version : string) (d k : Z)
    (f : fs) :
  is_ok (fst (Os.check_writable (History.path h) f)) = true ->
  forall fm,
    History.save user version d k (h, FS (cwd f) fm (dirs f))
    = (Ok tt,
       (History.Make (History.url h) (History.path h)
          (<[inr k := Entry user (strftime d) version]> (History.entries h))
          (History.entryKeys h),
        FS (cwd f)
           (<[Os.abspath f (History.path h) :=
                Os.line_ends
                  (json_dump (<[inr k := Entry user (strftime d) version]>
                                (History.entries h)))]>
              (<[Os.abspath f (History.path h) := Os.line_ends ""]> fm))
           (dirs f))).
Proof.
  intros Hw fm. unfold History.save.
  erewrite bind_Ok by reflexivity.
  erewrite bind_Ok by (apply on_snd_run, (write_file_run _ _ f Hw)).
  erewrite bind_Ok by reflexivity.
  erewrite bind_Ok by reflexivity.
  apply on_snd_run. apply (write_file_run _ _ f Hw).
Qed.

Lemma read_file_run (p : string) (f : fs) (c : string) :
  (p =? "") = false -> files f !! Os.abspath f p = Some c ->
  Os.read_file p f = (Ok (Os.universal_newlines c), f).
Proof. intros Hp Hc. unfold Os.read_file. rewrite Hp, Hc. reflexivity. Qed.

Lemma load_run (pg : Page.t) (f : fs) (c : string) :
  (Page.path pg =? "") = false ->
  files f !! Os.abspath f (Page.path pg) = Some c ->
  Page.load (pg, f)
  = (Ok tt,
     (Page.Make (Page.path pg) (Page.url pg) (Page._meta pg) (Page.history pg)
        (Some (Os.universal_newlines c)) (Page._html pg) (Page.body pg), f)).
Proof.
  intros Hp Hc. unfold Page.load.
  erewrite bind_Ok by reflexivity.
  erewrite bind_Ok by (apply on_snd_run, (read_file_run _ _ _ Hp Hc)).
  erewrite bind_Ok by reflexivity. reflexivity.
Qed.

Lemma render_raise (pg : Page.t) (f : fs) (text : string) (e : exn) :
  Page.content pg = Some text -> Processor.process text = Raise e ->
  Page.render (pg, f) = (Raise e, (pg, f)).
Proof.
  intros Hc Hr. unfold Page.render.
  erewrite bind_Ok by reflexivity. cbn [fst]. rewrite Hc.
  apply bind_Raise. unfold lift_result. rewrite Hr. reflexivity.
Qed.

(** C10 (amended). For a page with an empty metadata mapping whose body,
    written after a lone newline and read back, holds no blank line (it
    does not begin with a line end and has no two line ends in a row),
    [save] with [update] set writes the content file, a newline followed
    by the body, appends the history entry and writes the history file,
    and then raises the error of the split stage; both files stay
    written. *)
Theorem save_not_atomic (pg : Page.t) (user body : string) (d k : Z) (f : fs) :
  let text := replace (CR ++ LF) LF body in
  let p := Page.path pg in
  let hp := History.path (Page.history pg) in
  let entries' :=
    <[inr k := Entry user (strftime d) text]> (History.entries (Page.history pg)) in
  Page._meta pg = [] ->
  Page.body pg = Some body ->
  contains (LF ++ LF) (Os.universal_newlines (Os.line_ends (LF ++ text))) = false ->
  fst (Os.exists_ (OsPath.dirname p) f) = Ok true ->
  is_ok (fst (Os.check_writable p f)) = true ->
  is_ok (fst (Os.check_writable hp f)) = true ->
  Os.abspath f hp <> Os.abspath f p ->
  exists pg' f',
    Page.save user true d k (pg, f)
    = (Raise (ValueError "not enough values to unpack"), (pg', f')) /\
    files f' !! Os.abspath f p = Some (Os.line_ends (LF ++ text)) /\
    files f' !! Os.abspath f hp = Some (Os.line_ends (json_dump entries')) /\
    History.entries (Page.history pg') = entries'.
Proof.
  intros text p hp entries' Hmeta Hbody Hblank Hdir Hwp Hwh Hne.
  assert (Hex : Os.exists_ (OsPath.dirname (Page.path pg)) f = (Ok true, f)).
  { unfold Os.exists_ in *. simpl in Hdir. injection Hdir as Hdir.
    fold p. rewrite Hdir. reflexivity. }
  clear Hdir.
  assert (Hp : (p =? "") = false).
  { unfold Os.check_writable in Hwp. destruct (p =? ""); [discriminate|reflexivity]. }
  destruct f as [c fm ds].
  set (f := FS c fm ds) in *.
  set (kp := Os.abspath f p) in *. set (kh := Os.abspath f hp) in *.
  set (c1 := Os.line_ends (LF ++ text)) in *.
  set (fm3 := <[kh := Os.line_ends (json_dump entries')]>
                (<[kh := Os.line_ends ""]> (<[kp := c1]> fm))).
  assert (Hc1 : fm3 !! kp = Some c1).
  { unfold fm3. rewrite !lookup_insert_ne by exact Hne. apply lookup_insert_eq. }
  eexists. exists (FS c fm3 ds).
  split; [|split; [exact Hc1|split; [apply lookup_insert_eq|]]].
  - unfold Page.save.
    erewrite bind_Ok by reflexivity.
    erewrite bind_Ok by (apply on_snd_run, Hex).
    cbn [negb]. erewrite bind_Ok by reflexivity.
    cbn [fst]. rewrite Hbody, Hmeta. cbn [Page.header fold_right].
    erewrite bind_Ok by (apply on_snd_run, (write_file_run _ _ f Hwp fm)).
    erewrite bind_Ok.
    2:{ cbn [fst snd]. rewrite (history_save_run _ _ _ _ _ f Hwh). reflexivity. }
    erewrite bind_Ok.
    2:{ apply (load_run _ (FS c fm3 ds) c1); [exact Hp|].
        rewrite (abspath_cwd _ f) by reflexivity. exact Hc1. }
    eapply render_raise; [reflexivity|].
    apply process_no_blank_line, Hblank.
  - reflexivity.
Qed.

End Save.

Lemma save_not_atomic_witness :
  exists pg' f',
    Page.save (fl := nt) (ext := Sample.externals) "ann" true 10 100
      (new_page "one line", nt_fs)
    = (Raise (ValueError "not enough values to unpack"), (pg', f')) /\
    files f' !! "\wiki\new.md" = Some (CR ++ LF ++ "one line") /\
    is_Some (files f' !! "\wiki\history\new.json") /\
    History.entries (Page.history pg') !! inr 100%Z
    = Some (Entry "ann" "10" "one line").
Proof.
  destruct (save_not_atomic (fl := nt) (ext := Sample.externals)
              (new_page "one line") "ann" "one line" 10 100 nt_fs)
    as (pg' & f' & Hs & Hc & Hh & He);
    try (vm_compute; first [reflexivity|discriminate]).
  exists pg', f'. split; [exact Hs|]. split; [exact Hc|].
  split; [eexists; exact Hh|]. rewrite He. apply lookup_insert_eq.
Defined.

(** C10 as stated fails: a body with a blank line in it does not begin
    with a newline, the file written for it splits, and the error that
    ends [save] comes from the metadata loop, which finds no entry for
    the empty first line. *)
Lemma save_counterexample :
  let body := "a" ++ LF ++ LF ++ "b" in
  let r := Page.save (fl := nt) (ext := Sample.externals) "ann" true 10 100
             (new_page body, nt_fs) in
  fst r = Raise (KeyError "") /\
  (fun c => Processor.split_raw (Os.universal_newlines c))
    <$> files (snd (snd r)) !! "\wiki\new.md"
  = Some (Ok (LF ++ "a", "b")).
Proof. vm_compute. repeat split. Qed.

(** * More of the module *)

(** ** Loops that may raise *)

Section Loops.

Context {A B : Type} (f : A -> B -> result A).

(** A loop whose rounds all end normally ends normally, and keeps what
    every round keeps. *)
Lemma rfold_invariant (P : A -> Prop) (l : list B) (acc : A) :
  P acc ->
  (forall a x, In x l -> P a -> exists a', f a x = Ok a' /\ P a') ->
  exists r, rfold f acc l = Ok r /\ P r.
Proof.
  revert acc. induction l as [|x l IH]; intros acc Hacc Hstep.
  - exists acc. split; [reflexivity|exact Hacc].
  - destruct (Hstep acc x (or_introl eq_refl) Hacc) as (a' & E & Ha').
    rewrite rfold_cons, E. simpl. apply IH; [exact Ha'|].
    intros a y Hy. apply Hstep. right. exact Hy.
Qed.

(** A loop stops at the first round that raises. *)
Lemma rfold_raise (l1 l2 : list B) (x : B) (e : exn) (acc : A) :
  (forall a y, In y l1 -> is_ok (f a y) = true) ->
  (forall a, f a x = Raise e) ->
  rfold f acc (l1 ++ x :: l2)%list = Raise e.
Proof.
  revert acc. induction l1 as [|y l1 IH]; intros acc Hok Hx.
  - simpl. rewrite Hx. reflexivity.
  - change ((y :: l1) ++ x :: l2)%list with (y :: (l1 ++ x :: l2))%list.
    rewrite rfold_cons.
    pose proof (Hok acc y (or_introl eq_refl)) as Hy.
    destruct (f acc y) as [a'|]; [|discriminate]. simpl.
    apply IH; [|exact Hx]. intros a z Hz. apply Hok. right. exact Hz.
Qed.

(** Every round of a loop that ended normally ended normally. *)
Lemma rfold_Ok_each (l : list B) (acc r : A) :
  rfold f acc l = Ok r ->
  forall x, In x l -> exists a a', f a x = Ok a'.
Proof.
  revert acc. induction l as [|y l IH]; intros acc Hr x Hx; [contradiction|].
  rewrite rfold_cons in Hr.
  destruct (f acc y) as [a1|] eqn:E; [|discriminate]. simpl in Hr.
  destruct Hx as [->|Hx]; [eauto|]. exact (IH _ Hr _ Hx).
Qed.

End Loops.

(** ** The alphabet of [clean_url] *)

Section CleanUrlMore.

Lemma strip_fixed (s : string) :
  strip s = s <-> first_ok s = true /\ last_ok s = true.
Proof.
  unfold strip. split.
  - intros E. rewrite <- E. split.
    + apply rstrip_first_ok, lstrip_first_ok.
    + apply rstrip_last_ok.
  - intros [H1 H2]. rewrite (lstrip_id s H1). apply rstrip_id, H2.
Qed.

(** X1. A cleaned url holds no space and no backslash, and neither
    [lower] nor [strip] changes it: it has no upper-case letter and no
    blank at either end. *)
Theorem clean_url_alphabet (s : string) :
  str_forall (fun c => negb (Ascii.eqb c " ") && negb (Ascii.eqb c "\"))
             (clean_url s) = true /\
  lower (clean_url s) = clean_url s /\
  strip (clean_url s) = clean_url s.
Proof.
  destruct (clean_url_cleaned s) as (Hc & H1 & H2).
  unfold url_char in Hc. rewrite !str_forall_and in Hc.
  apply andb_true_iff in Hc as [[Hl Hsp]%andb_true_iff Hbs].
  split; [|split].
  - rewrite str_forall_and. apply andb_true_iff. split; assumption.
  - apply lower_id, Hl.
  - apply strip_fixed. split; assumption.
Qed.

(** X2. The urls [clean_url] leaves as they are are exactly the texts
    of lower-case characters other than the space and the backslash that
    [strip] leaves as they are. *)
Theorem clean_url_fixed_points (s : string) :
  clean_url s = s <-> str_forall url_char s = true /\ strip s = s.
Proof.
  split.
  - intros E. destruct (clean_url_cleaned s) as (Hc & H1 & H2).
    rewrite E in *. split; [exact Hc|]. apply strip_fixed. split; assumption.
  - intros [Hc [H1 H2]%strip_fixed]. apply cleaned_fixed.
    repeat split; assumption.
Qed.

End CleanUrlMore.

(** ** Occurrences of a literal text *)

Section Occurrences.

Variable text : string.

Lemma take_drop (n : nat) (s : string) : take n s ++ drop n s = s.
Proof.
  revert s. induction n as [|n IH]; intros [|c s]; simpl; try reflexivity.
  rewrite IH. reflexivity.
Qed.

Lemma length_app_str (a b : string) :
  String.length (a ++ b) = String.length a + String.length b.
Proof. induction a as [|c a IH]; simpl; congruence. Qed.

Lemma absent_everywhere (sep : string) :
  contains sep text = false -> forall i, startswith sep (drop i text) = false.
Proof.
  unfold contains. destruct (cut sep text) eqn:E; [discriminate|]. intros _ i.
  destruct (startswith sep (drop i text)) eqn:S; [|reflexivity].
  apply startswith_spec in S as [t Ht].
  exfalso. apply (cut_None _ _ E (take i text) t).
  rewrite <- Ht. symmetry. apply take_drop.
Qed.

Lemma present_somewhere (sep : string) :
  contains sep text = true ->
  exists i, i <= String.length text /\ startswith sep (drop i text) = true.
Proof.
  unfold contains. destruct (cut sep text) as [[a b]|] eqn:E; [|discriminate].
  intros _. destruct (cut_Some _ _ _ _ E) as [Ht _].
  exists (String.length a). split.
  - rewrite Ht, length_app_str. lia.
  - rewrite Ht, drop_app_length. apply startswith_refl.
Qed.

Lemma search_from_Some (r : regex) (fuel i b : nat) (st : mstate) :
  search_from text r fuel i = Some (b, st) ->
  i <= b <= i + fuel /\ exec text r (MState b []) Some = Some st.
Proof.
  revert i. induction fuel as [|fuel IH]; intros i; simpl.
  - destruct (exec text r (MState i []) Some) eqn:E; [|discriminate].
    intros [= <- <-]. split; [lia|exact E].
  - destruct (exec text r (MState i []) Some) eqn:E.
    + intros [= <- <-]. split; [lia|exact E].
    + intros H. destruct (IH _ H). split; [lia|assumption].
Qed.

Lemma search_from_finds (r : regex) (fuel i j : nat) :
  i <= j <= i + fuel -> is_Some (exec text r (MState j []) Some) ->
  is_Some (search_from text r fuel i).
Proof.
  revert i. induction fuel as [|fuel IH]; intros i Hj Hex; simpl.
  - replace i with j by lia. destruct Hex as [st ->]. eauto.
  - destruct (exec text r (MState i []) Some) eqn:E; [eauto|].
    apply IH; [|exact Hex].
    destruct (decide (i = j)) as [->|]; [|lia].
    rewrite E in Hex. destruct Hex; discriminate.
Qed.

Lemma search_from_None (r : regex) :
  (forall st k, exec text r st k = None) ->
  forall fuel i, search_from text r fuel i = None.
Proof.
  intros H fuel. induction fuel as [|fuel IH]; intros i; simpl; rewrite H; auto.
Qed.

Lemma exec_Lit (s : string) (i : nat) :
  exec text (Lit s) (MState i []) Some
  = if startswith s (drop i text) then Some (MState (i + String.length s) [])
    else None.
Proof. reflexivity. Qed.

Lemma finditer_go_Lit (s : string) (fuel i : nat) :
  Forall (fun m => i <= fst m <= String.length text /\
                   startswith s (drop (fst m) text) = true)
         (finditer_go text (Lit s) fuel i).
Proof.
  revert i. induction fuel as [|fuel IH]; intros i; simpl; [constructor|].
  unfold search.
  destruct (i <=? String.length text)%nat eqn:Hi; [|constructor].
  apply Nat.leb_le in Hi.
  destruct (search_from text (Lit s) (String.length text - i) i)
    as [[b st]|] eqn:E; [|constructor].
  apply search_from_Some in E as [Hb Hex].
  rewrite exec_Lit in Hex.
  destruct (startswith s (drop b text)) eqn:Hs; [|discriminate].
  injection Hex as <-. constructor.
  - simpl. split; [lia|exact Hs].
  - eapply Forall_impl; [apply IH|]. simpl. intros [b' st'] [H1 H2].
    split; [|exact H2]. simpl in *.
    destruct (b + String.length s =? b)%nat; lia.
Qed.

(** X3. For a pattern that is literal text, as [<h1>] and [</h1>]
    are, [find_tags] returns places where that text stands, and it
    returns none exactly when the text does not occur: the list is empty
    exactly when [final.count] is zero. *)
Theorem find_tags_occurrences (substr : string) :
  re_literal substr = true ->
  Forall (fun i => i <= String.length text /\
                   startswith substr (drop i text) = true)
         (Processor.find_tags substr text) /\
  (Processor.find_tags substr text = [] <-> contains substr text = false).
Proof.
  intros _. unfold Processor.find_tags, finditer. split.
  - apply Forall_fmap. eapply Forall_impl; [apply finditer_go_Lit|].
    simpl. intros m [[_ H1] H2]. auto.
  - split.
    + intros Hnil. destruct (contains substr text) eqn:Hc; [|reflexivity].
      exfalso. destruct (present_somewhere _ Hc) as (i & Hi & Hs).
      destruct (search_from_finds (Lit substr) (String.length text) 0 i)
        as [[b st] Hb].
      { lia. }
      { rewrite exec_Lit, Hs. eauto. }
      simpl in Hnil. unfold search in Hnil. simpl in Hnil.
      rewrite Nat.sub_0_r, Hb in Hnil. discriminate Hnil.
    + intros Hc.
      pose proof (finditer_go_Lit substr (S (String.length text)) 0) as Hall.
      destruct (finditer_go text (Lit substr) (S (String.length text)) 0)
        as [|m l]; [reflexivity|].
      apply Forall_cons in Hall as [[_ Hs] _].
      rewrite (absent_everywhere _ Hc) in Hs. discriminate.
Qed.

Lemma exec_link_regex_None (st : mstate) (k : mstate -> option mstate) :
  (forall i, startswith "[[" (drop i text) = false) ->
  exec text link_regex st k = None.
Proof.
  intros H. unfold link_regex. cbn [exec].
  destruct (_ && _); [reflexivity|]. rewrite H. reflexivity.
Qed.

(** X4. A text without two opening brackets in a row passes through
    [wikilink] as it is, whatever the formatter of urls. *)
Theorem wikilink_without_brackets
    (url_formatter : string -> string -> string) :
  contains "[[" text = false -> wikilink url_formatter text = Ok text.
Proof.
  intros Hc. pose proof (absent_everywhere _ Hc) as Hn.
  unfold wikilink, findall_links, finditer. cbn [finditer_go].
  unfold search. rewrite search_from_None.
  - destruct (0 <=? String.length text)%nat; reflexivity.
  - intros st k. apply exec_link_regex_None, Hn.
Qed.

End Occurrences.

Lemma find_tags_occurrences_witness :
  Forall (fun i => i <= String.length "<h1>A</h1><h1>B</h1>" /\
                   startswith "<h1>" (drop i "<h1>A</h1><h1>B</h1>") = true)
         (Processor.find_tags "<h1>" "<h1>A</h1><h1>B</h1>") /\
  (Processor.find_tags "<h1>" "<h1>A</h1><h1>B</h1>" = [] <->
   contains "<h1>" "<h1>A</h1><h1>B</h1>" = false).
Proof.
  apply (find_tags_occurrences "<h1>A</h1><h1>B</h1>" "<h1>"). reflexivity.
Defined.

Lemma wikilink_without_brackets_witness :
  wikilink slash_url "no [link] here" = Ok "no [link] here".
Proof. apply wikilink_without_brackets. reflexivity. Defined.

(** ** The table of contents *)

Section ContentsTable.

Import Processor.

Lemma startswith_app (p a b : string) :
  startswith p a = true -> startswith p (a ++ b) = true.
Proof.
  intros [t ->]%startswith_spec. rewrite app_assoc_str. apply startswith_refl.
Qed.

Lemma at_index_Ok (l : list nat) (i : nat) :
  i < length l -> exists x, at_index l i = Ok x.
Proof.
  intros Hi. unfold at_index.
  destruct (lookup_lt_is_Some_2 l i Hi) as [x ->]. eauto.
Qed.

Lemma at_index_Raise (l : list nat) (i : nat) :
  length l <= i -> at_index l i = Raise IndexError.
Proof.
  intros Hi. unfold at_index. rewrite (lookup_ge_None_2 l i Hi). reflexivity.
Qed.

(** X5. [generate_contents_table] returns a text without [<h1>] as it
    is.  For a text with [<h1>] it ends normally exactly when the closing
    tags are at least as many as the opening tags, and the HTML then
    begins with the opening of the table; with fewer closing tags it
    raises [IndexError]. *)
Theorem contents_table_headings (final : string) :
  let opened := length (find_tags "<h1>" final) in
  let closed := length (find_tags "</h1>" final) in
  match generate_contents_table final final with
  | Ok html =>
      if contains "<h1>" final
      then opened <= closed /\ startswith table_open html = true
      else html = final
  | Raise e =>
      e = IndexError /\ contains "<h1>" final = true /\ closed < opened
  end.
Proof.
  intros opened closed. unfold generate_contents_table.
  destruct (contains "<h1>" final) eqn:Hc; [|reflexivity].
  fold opened.
  set (opens := find_tags "<h1>" final) in *.
  set (closes := find_tags "</h1>" final) in *.
  destruct (le_lt_dec opened closed) as [Hle|Hlt].
  - match goal with
    | |- context [rfold ?f table_open (seq 0 opened)] =>
        destruct (rfold_invariant f (fun t => startswith table_open t = true)
                    (seq 0 opened) table_open) as (t & Et & Ht)
    end.
    { apply (startswith_refl table_open ""). }
    { intros a i Hi Ha. apply in_seq in Hi.
      destruct (at_index_Ok opens i) as [o Eo]; [unfold opened in Hi; lia|].
      destruct (at_index_Ok closes i) as [c Ec]; [unfold closed in Hle; lia|].
      rewrite Eo, Ec. simpl. eexists. split; [reflexivity|].
      apply startswith_app, Ha. }
    rewrite Et. simpl.
    match goal with
    | |- context [rfold ?f final (rev (seq 0 opened))] =>
        destruct (rfold_invariant f (fun _ => True)
                    (rev (seq 0 opened)) final I) as (b & Eb & _)
    end.
    { intros a i Hi _. apply in_rev, in_seq in Hi.
      destruct (at_index_Ok opens i) as [o Eo]; [unfold opened in Hi; lia|].
      destruct (at_index_Ok closes i) as [c Ec]; [unfold closed in Hle; lia|].
      rewrite Eo, Ec. simpl. eauto. }
    rewrite Eb. simpl. split; [exact Hle|]. apply startswith_app, Ht.
  - assert (Hseq : seq 0 opened
                   = (seq 0 closed
                      ++ closed :: seq (S closed) (opened - S closed))%list).
    { replace opened with (closed + S (opened - S closed)) at 1 by lia.
      rewrite seq_app. reflexivity. }
    rewrite Hseq. erewrite rfold_raise.
    + simpl. auto.
    + intros a i Hi. apply in_seq in Hi.
      destruct (at_index_Ok opens i) as [o Eo]; [unfold opened in Hlt; lia|].
      destruct (at_index_Ok closes i) as [c Ec]; [unfold closed in Hi; lia|].
      rewrite Eo, Ec. reflexivity.
    + intros a.
      destruct (at_index_Ok opens closed) as [o Eo]; [exact Hlt|].
      rewrite Eo, at_index_Raise by (unfold closed; lia). reflexivity.
Qed.

End ContentsTable.

(** A heading that is closed, and one that is not. *)
Example contents_table_samples :
  Processor.generate_contents_table "<h1>A b</h1>" "<h1>A b</h1>"
  = Ok (Processor.table_open ++ "<li><a href=" ++ dquote ++ "#A_b" ++ dquote
        ++ ">A b</a></li></ul><br></div></div><a name=" ++ dquote ++ "A_b"
        ++ dquote ++ "></a><h1>A b</h1>") /\
  Processor.generate_contents_table "<h1>A b" "<h1>A b" = Raise IndexError.
Proof. vm_compute. split; reflexivity. Qed.

(** ** The metadata mapping of a page *)

Section OrderedDict.

Lemma od_get_set (k v k' : string) (d : list (string * string)) :
  od_get k' (od_set k v d) = if String.eqb k k' then Some v else od_get k' d.
Proof.
  induction d as [|[k0 v0] d IH]; simpl.
  - reflexivity.
  - destruct (String.eqb k0 k) eqn:E0; simpl.
    + apply String.eqb_eq in E0 as ->. destruct (String.eqb k k'); reflexivity.
    + destruct (String.eqb k0 k') eqn:E1.
      * apply String.eqb_eq in E1 as ->.
        rewrite String.eqb_sym, E0. reflexivity.
      * exact IH.
Qed.

Lemma od_set_keys (k v : string) (d : list (string * string)) :
  map fst (od_set k v d)
  = if bool_decide (k ∈ map fst d) then map fst d else (map fst d ++ [k])%list.
Proof.
  induction d as [|[k0 v0] d IH]; simpl.
  - reflexivity.
  - destruct (String.eqb k0 k) eqn:E0; simpl.
    + apply String.eqb_eq in E0 as ->.
      rewrite bool_decide_eq_true_2 by left. reflexivity.
    + apply String.eqb_neq in E0. rewrite IH.
      destruct (bool_decide (k ∈ map fst d)) eqn:Hd.
      * apply bool_decide_eq_true in Hd.
        rewrite bool_decide_eq_true_2 by (right; exact Hd). reflexivity.
      * apply bool_decide_eq_false in Hd.
        rewrite bool_decide_eq_false_2; [reflexivity|].
        intros [->|H]%elem_of_cons; [congruence|contradiction].
Qed.

(** X6. A value assigned to a key of a page is the one read back, the
    other keys read as before, [title] and [tags] read what their setters
    stored, and the header lines keep their order: a known key stays in
    its place, a new key goes last. *)
Theorem setitem_getitem (pg : Page.t) (name value other : string) :
  Page.getitem (Page.setitem name value pg) other
  = (if String.eqb name other then Ok value else Page.getitem pg other) /\
  Page.title (Page.setitem "title" value pg) = value /\
  Page.tags (Page.setitem "tags" value pg) = value /\
  map fst (Page._meta (Page.setitem name value pg))
  = if bool_decide (name ∈ map fst (Page._meta pg))
    then map fst (Page._meta pg)
    else (map fst (Page._meta pg) ++ [name])%list.
Proof.
  unfold Page.tags, Page.getitem, Page.title, Page.setitem. simpl.
  rewrite !od_get_set. simpl. repeat split.
  - destruct (String.eqb name other); reflexivity.
  - apply od_set_keys.
Qed.

End OrderedDict.

(** ** What [process_meta] asks of a header and leaves in the page *)

Section MetaMore.

Context `{Externals}.

Import Processor.

Implicit Types (line key : string) (lines : list string).

Lemma reserved_lower key : reserved key = true -> lower key = key.
Proof. intros [-> | [-> | ->]]%reserved_cases; reflexivity. Qed.

(** One round of the second loop: the renderer's mapping changes under
    the line's key at most, and only for a reserved key; the page's
    mapping receives the joined value of that key. *)
Lemma store_line_inv total n avg Meta meta line Meta1 meta1 :
  store_line total n avg (Meta, meta) line = Ok (Meta1, meta1) ->
  let k := lower (line_key line) in
  exists v,
    Meta1 !! k = Some v /\ meta1 = od_set k (join_val v) meta /\
    (forall k', k' <> k -> Meta1 !! k' = Meta !! k') /\
    (reserved (line_key line) = false -> Meta1 = Meta).
Proof.
  intros Hs k. unfold store_line in Hs.
  set (Meta2 := if line_key line =? "total" then _ else _) in Hs.
  destruct (Meta2 !! lower (line_key line)) as [v|] eqn:Ev; [|discriminate].
  injection Hs as <- <-. exists v. split; [exact Ev|]. split; [reflexivity|].
  subst Meta2 k. unfold reserved.
  destruct (line_key line =? "total") eqn:K1;
    [|destruct (line_key line =? "timesrated") eqn:K2;
      [|destruct (line_key line =? "rating") eqn:K3]];
    simpl; (split; [|first [discriminate|intros _; reflexivity]]);
    intros k' Hk'; first [reflexivity|apply lookup_insert_ne; congruence].
Qed.

Lemma store_lines_inv total n avg lines Meta meta Meta' meta' :
  rfold (store_line total n avg) (Meta, meta) lines = Ok (Meta', meta') ->
  forall k,
    (k ∈ map (fun line => lower (line_key line)) lines ->
     exists v, Meta' !! k = Some v /\ od_get k meta' = Some (join_val v)) /\
    (k ∉ map (fun line => lower (line_key line)) lines ->
     Meta' !! k = Meta !! k /\ od_get k meta' = od_get k meta).
Proof.
  revert Meta meta. induction lines as [|line lines IH]; intros Meta meta.
  - simpl. intros [= <- <-] k. split; [intros Hk; inversion Hk|auto].
  - rewrite rfold_cons.
    destruct (store_line total n avg (Meta, meta) line) as [[Meta1 meta1]|]
      eqn:E1; [|discriminate].
    simpl. intros Hrest k.
    destruct (store_line_inv _ _ _ _ _ _ _ _ E1) as (v & Hv & -> & Hother & _).
    destruct (IH _ _ Hrest k) as [IHin IHout].
    destruct (decide (k ∈ map (fun line => lower (line_key line)) lines))
      as [Hin|Hout].
    + split; [intros _; exact (IHin Hin)|].
      intros Hn. exfalso. apply Hn. right. exact Hin.
    + destruct (IHout Hout) as [HM Hm]. split.
      * intros [->|Hk]%elem_of_cons; [|contradiction].
        exists v. rewrite HM, Hm, od_get_set, String.eqb_refl. auto.
      * intros Hn. assert (Hne : k <> lower (line_key line)).
        { intros ->. apply Hn. left. }
        rewrite HM, Hm, od_get_set.
        rewrite (Hother _ Hne). split; [reflexivity|].
        destruct (String.eqb_spec (lower (line_key line)) k); congruence.
Qed.

(** X7. When [process_meta] ends normally the page's mapping has
    exactly the keys of the header lines, in lower case, and each is bound
    to the join by line ends of what the renderer's mapping holds under
    it at the end; for a reserved key that is a text, joined character
    by character. *)
Theorem process_meta_mapping meta_raw Meta Meta' meta :
  process_meta meta_raw Meta = Ok (Meta', meta) ->
  let keys := map (fun line => lower (line_key line)) (split LF meta_raw) in
  forall k,
    od_get k meta
    = if bool_decide (k ∈ keys) then join_val <$> Meta' !! k else None.
Proof.
  intros Hp keys k. unfold process_meta in Hp.
  destruct (rating_stats meta_raw) as [[total n]|]; [|discriminate].
  simpl in Hp. destruct (n =? 0)%Z; [discriminate|].
  destruct (float_str total n) as [avg|]; [|discriminate].
  simpl in Hp. destruct (store_lines_inv _ _ _ _ _ _ _ _ Hp k) as [Hin Hout].
  fold keys in Hin, Hout.
  destruct (bool_decide (k ∈ keys)) eqn:Hk.
  - apply bool_decide_eq_true in Hk. destruct (Hin Hk) as (v & -> & ->).
    reflexivity.
  - apply bool_decide_eq_false in Hk. destruct (Hout Hk) as [_ ->]. reflexivity.
Qed.

Lemma scan_rating_reserved acc line acc1 :
  scan_rating acc line = Ok acc1 -> reserved (line_key line) = true ->
  is_Some (field_of line).
Proof.
  intros Hs Hr. destruct (scan_rating_step _ _ _ Hs) as (S1 & S2 & S3).
  destruct (reserved_cases _ Hr) as [E | [E | E]]; rewrite E in *; simpl in *;
    eauto.
Qed.

Lemma store_lines_needs total n avg lines Meta meta Meta' meta' :
  rfold (store_line total n avg) (Meta, meta) lines = Ok (Meta', meta') ->
  (forall k, is_Some (Meta' !! k) -> is_Some (Meta !! k) \/ reserved k = true) /\
  forall line, In line lines -> reserved (line_key line) = false ->
    is_Some (Meta !! lower (line_key line))
    \/ reserved (lower (line_key line)) = true.
Proof.
  revert Meta meta. induction lines as [|line lines IH]; intros Meta meta.
  - simpl. intros [= <- <-]. split; [auto|contradiction].
  - rewrite rfold_cons.
    destruct (store_line total n avg (Meta, meta) line) as [[Meta1 meta1]|]
      eqn:E1; [|discriminate].
    simpl. intros Hrest.
    destruct (store_line_inv _ _ _ _ _ _ _ _ E1) as (v & Hv & _ & Hother & Hsame).
    destruct (IH _ _ Hrest) as [IH1 IH2].
    assert (Hup : forall k, is_Some (Meta1 !! k) ->
                            is_Some (Meta !! k) \/ reserved k = true).
    { intros k Hk. destruct (decide (k = lower (line_key line))) as [->|Hne].
      - destruct (reserved (line_key line)) eqn:Hr.
        + right. rewrite (reserved_lower _ Hr). exact Hr.
        + rewrite (Hsame eq_refl) in Hk. auto.
      - rewrite (Hother _ Hne) in Hk. auto. }
    split.
    + intros k Hk. destruct (IH1 _ Hk) as [Hk1|Hk1]; auto.
    + intros l [<-|Hl] Hr.
      * rewrite (Hsame Hr) in Hv. left. eauto.
      * destruct (IH2 _ Hl Hr) as [Hk|Hk]; auto.
Qed.

(** X8. [process_meta] ends normally only for a header in which every
    line with a reserved key has an integer for its second word, and
    every other line has a key that, in lower case, the renderer's
    mapping holds or is a reserved one.  The empty line of an empty
    header is such a line: its key is the empty text. *)
Theorem process_meta_needs meta_raw Meta Meta' meta :
  process_meta meta_raw Meta = Ok (Meta', meta) ->
  forall line, In line (split LF meta_raw) ->
    if reserved (line_key line) then is_Some (field_of line)
    else is_Some (Meta !! lower (line_key line))
         \/ reserved (lower (line_key line)) = true.
Proof.
  intros Hp line Hl. unfold process_meta, rating_stats in Hp.
  destruct (rfold scan_rating _ _) as [acc|] eqn:Es; [|discriminate].
  simpl in Hp. destruct (_ =? 0)%Z; [discriminate|].
  destruct (float_str _ _) as [avg|]; [|discriminate]. simpl in Hp.
  destruct (reserved (line_key line)) eqn:Hr.
  - destruct (rfold_Ok_each _ _ _ _ Es _ Hl) as (a & a' & Ha).
    exact (scan_rating_reserved _ _ _ Ha Hr).
  - exact (proj2 (store_lines_needs _ _ _ _ _ _ _ _ Hp) _ Hl Hr).
Qed.

(** X9. A header whose reserved lines can be read and whose last
    [timesrated] line gives -1 makes [process_meta] raise
    [ZeroDivisionError]. *)
Theorem process_meta_zero_division meta_raw Meta :
  is_ok (rating_stats meta_raw) = true ->
  header_int "timesrated" (split LF meta_raw) = Some (-1)%Z ->
  process_meta meta_raw Meta = Raise ZeroDivisionError.
Proof.
  intros Hok Ht. unfold process_meta.
  destruct (rating_stats meta_raw) as [[total n]|] eqn:Es; [|discriminate].
  destruct (rating_stats_spec _ _ _ Es) as [_ Hn].
  unfold divisor in Hn. rewrite Ht in Hn. subst n. reflexivity.
Qed.

End MetaMore.

Lemma process_meta_mapping_witness :
  match Processor.process_meta (H := Sample.externals) rated_header rated_Meta
  with
  | Ok (Meta', meta) =>
      od_get "rating" meta = join_val <$> Meta' !! "rating" /\
      od_get "title" meta = None
  | Raise _ => False
  end.
Proof.
  destruct (Processor.process_meta (H := Sample.externals) rated_header
              rated_Meta) as [[Meta' meta]|e] eqn:E.
  - split.
    + exact (process_meta_mapping (H := Sample.externals) _ _ _ _ E "rating").
    + exact (process_meta_mapping (H := Sample.externals) _ _ _ _ E "title").
  - assert (Hok : is_ok (Processor.process_meta (H := Sample.externals)
                          rated_header rated_Meta) = true)
      by (vm_compute; reflexivity).
    rewrite E in Hok. discriminate Hok.
Defined.

Lemma process_meta_needs_witness :
  match Processor.process_meta (H := Sample.externals) rated_header rated_Meta
  with
  | Ok _ => is_Some (field_of "total: 4")
  | Raise _ => False
  end.
Proof.
  destruct (Processor.process_meta (H := Sample.externals) rated_header
              rated_Meta) as [[Meta' meta]|e] eqn:E.
  - apply (process_meta_needs (H := Sample.externals) _ _ _ _ E "total: 4").
    vm_compute. auto.
  - assert (Hok : is_ok (Processor.process_meta (H := Sample.externals)
                          rated_header rated_Meta) = true)
      by (vm_compute; reflexivity).
    rewrite E in Hok. discriminate Hok.
Defined.

Lemma process_meta_zero_division_witness :
  Processor.process_meta (H := Sample.externals) "timesrated: -1" ∅
  = Raise ZeroDivisionError.
Proof.
  apply (process_meta_zero_division (H := Sample.externals));
    vm_compute; reflexivity.
Defined.

(** An empty header has one line, the empty one, and the renderer holds
    nothing under the empty key. *)
Example process_meta_empty_header :
  Processor.process_meta (H := Sample.externals) "" ∅ = Raise (KeyError "").
Proof. vm_compute. reflexivity. Qed.

(** ** What [save] writes, read again *)

Section SavedText.

Lemma contains_cons_false (sep : string) (c : ascii) (s : string) :
  contains sep (String c s) = false ->
  startswith sep (String c s) = false /\ contains sep s = false.
Proof.
  unfold contains. rewrite cut_unfold.
  destruct (startswith sep (String c s)); [discriminate|].
  destruct (cut sep s) as [[a b]|]; [discriminate|]. auto.
Qed.

(** The first blank line of a text is the one that ends its head when
    the head, with its line end, holds none. *)
Lemma cut_blank_line (a b : string) :
  contains (LF ++ LF) (a ++ LF) = false ->
  cut (LF ++ LF) (a ++ LF ++ LF ++ b) = Some (a, b).
Proof.
  induction a as [|c a IH]; intros Hc.
  - rewrite cut_unfold.
    change ("" ++ LF ++ LF ++ b) with ((LF ++ LF) ++ b).
    rewrite startswith_refl, drop_app_length. reflexivity.
  - change (String c a ++ LF) with (String c (a ++ LF)) in Hc.
    apply contains_cons_false in Hc as [Hs Hc].
    change (String c a ++ LF ++ LF ++ b) with (String c (a ++ LF ++ LF ++ b)).
    rewrite cut_unfold, (IH Hc).
    replace (startswith (LF ++ LF) (String c (a ++ LF ++ LF ++ b))) with false;
      [reflexivity|].
    symmetry. unfold LF in *. simpl in Hs |- *.
    rewrite startswith_cons in Hs |- *.
    destruct (bool_decide ("010"%char = c)); [|reflexivity]. simpl in Hs |- *.
    destruct a as [|d a]; [discriminate Hs|].
    simpl in Hs |- *. rewrite startswith_cons in Hs |- *.
    rewrite startswith_nil in *. exact Hs.
Qed.

Lemma header_lines (meta : list (string * string)) :
  meta <> [] -> Page.header meta = join LF (map header_line meta) ++ LF.
Proof.
  induction meta as [|kv meta IH]; [congruence|]. intros _.
  destruct meta as [|kv' meta].
  - simpl. unfold header_line. rewrite !app_assoc_str. reflexivity.
  - change (Page.header (kv :: kv' :: meta))
      with (fst kv ++ ": " ++ snd kv ++ LF ++ Page.header (kv' :: meta)).
    rewrite IH by discriminate.
    change (join LF (map header_line (kv :: kv' :: meta)))
      with (header_line kv ++ LF ++ join LF (map header_line (kv' :: meta))).
    unfold header_line. rewrite !app_assoc_str. reflexivity.
Qed.

(** The text [save] writes for a page with metadata splits at the end of
    its header, when the header holds no blank line. *)
Lemma split_saved (meta : list (string * string)) (body : string) :
  meta <> [] ->
  contains (LF ++ LF) (Page.header meta) = false ->
  Processor.split_raw (Page.header meta ++ LF ++ body)
  = Ok (join LF (map header_line meta), body).
Proof.
  intros Hm Hc. rewrite (header_lines meta Hm) in *.
  unfold Processor.split_raw. rewrite app_assoc_str.
  rewrite (cut_blank_line _ body Hc). reflexivity.
Qed.

End SavedText.

Section SaveMore.

Context {fl : Flavour} {ext : Externals}.

Lemma replace_char (c : ascii) (new : string) (d : ascii) (s : string) :
  replace (String c "") new (String d s)
  = if Ascii.eqb c d then new ++ replace (String c "") new s
    else String d (replace (String c "") new s).
Proof.
  unfold replace. simpl replace_go. rewrite startswith_cons, startswith_nil.
  rewrite andb_true_r.
  destruct (Ascii.eqb_spec c d) as [->|Hne].
  - rewrite bool_decide_eq_true_2 by reflexivity. reflexivity.
  - rewrite bool_decide_eq_false_2 by assumption. reflexivity.
Qed.

(** A text without carriage returns is read as it was written, with the
    line ends of either platform in the file. *)
Lemma read_back (s : string) :
  str_forall (is_not "013") s = true ->
  Os.universal_newlines (Os.line_ends s) = s.
Proof.
  unfold Os.line_ends. destruct crlf.
  - induction s as [|c s IH]; [reflexivity|].
    simpl str_forall. intros [Hc Hs]%andb_true_iff.
    unfold LF. rewrite replace_char.
    unfold is_not in Hc. apply negb_true_iff in Hc.
    destruct (Ascii.eqb "010" c) eqn:E.
    + apply Ascii.eqb_eq in E as <-. simpl. f_equal. apply IH, Hs.
    + simpl. rewrite Hc. f_equal. apply IH, Hs.
  - induction s as [|c s IH]; [reflexivity|].
    simpl. intros [Hc Hs]%andb_true_iff.
    unfold is_not in Hc. apply negb_true_iff in Hc. rewrite Hc.
    f_equal. apply IH, Hs.
Qed.

(** X10. [save] without [update], for a page that has a body, whose
    folder exists and whose two files can be written, the history file
    not being the content file: it ends normally, writes the header
    lines, an empty line and the body (CR LF made LF) to the content
    file and the new entries to the history file, touches no other file,
    and changes nothing of the page but the entries of its history.  When
    the written text holds no carriage return, [load] then reads it
    back as it was written. *)
Theorem save_then_load (pg : Page.t) (user body : string) (d k : Z) (f : fs) :
  let text := replace (CR ++ LF) LF body in
  let p := Page.path pg in
  let hp := History.path (Page.history pg) in
  let entries' :=
    <[inr k := Entry user (strftime d) text]> (History.entries (Page.history pg)) in
  let written := Page.header (Page._meta pg) ++ LF ++ text in
  Page.body pg = Some body ->
  fst (Os.exists_ (OsPath.dirname p) f) = Ok true ->
  is_ok (fst (Os.check_writable p f)) = true ->
  is_ok (fst (Os.check_writable hp f)) = true ->
  Os.abspath f hp <> Os.abspath f p ->
  exists h' f',
    Page.save user false d k (pg, f) = (Ok tt, (Page.set_history h' pg, f')) /\
    History.entries h' = entries' /\
    History.entryKeys h' = History.entryKeys (Page.history pg) /\
    files f' !! Os.abspath f p = Some (Os.line_ends written) /\
    files f' !! Os.abspath f hp = Some (Os.line_ends (json_dump entries')) /\
    (forall key, key <> Os.abspath f p -> key <> Os.abspath f hp ->
                 files f' !! key = files f !! key) /\
    (str_forall (is_not "013") written = true ->
     exists pg',
       Page.load (Page.set_history h' pg, f') = (Ok tt, (pg', f')) /\
       Page.content pg' = Some written).
Proof.
  intros text p hp entries' written Hbody Hdir Hwp Hwh Hne.
  assert (Hex : Os.exists_ (OsPath.dirname (Page.path pg)) f = (Ok true, f)).
  { unfold Os.exists_ in *. simpl in Hdir. injection Hdir as Hdir.
    fold p. rewrite Hdir. reflexivity. }
  clear Hdir.
  assert (Hp : (p =? "") = false).
  { unfold Os.check_writable in Hwp. destruct (p =? ""); [discriminate|reflexivity]. }
  destruct f as [c fm ds].
  set (f := FS c fm ds) in *.
  set (kp := Os.abspath f p) in *. set (kh := Os.abspath f hp) in *.
  set (c1 := Os.line_ends written) in *.
  set (fm3 := <[kh := Os.line_ends (json_dump entries')]>
                (<[kh := Os.line_ends ""]> (<[kp := c1]> fm))).
  assert (Hc1 : fm3 !! kp = Some c1).
  { unfold fm3. rewrite !lookup_insert_ne by exact Hne. apply lookup_insert_eq. }
  eexists. exists (FS c fm3 ds).
  split; [|split; [|split; [|split; [exact Hc1|split;
    [apply lookup_insert_eq|split]]]]].
  - unfold Page.save.
    erewrite bind_Ok by reflexivity.
    erewrite bind_Ok by (apply on_snd_run, Hex).
    cbn [negb]. erewrite bind_Ok by reflexivity.
    cbn [fst]. rewrite Hbody.
    erewrite bind_Ok by (apply on_snd_run, (write_file_run _ _ f Hwp fm)).
    erewrite bind_Ok.
    2:{ cbn [fst snd]. rewrite (history_save_run _ _ _ _ _ f Hwh). reflexivity. }
    reflexivity.
  - reflexivity.
  - reflexivity.
  - intros key H1 H2. simpl. unfold fm3.
    rewrite !lookup_insert_ne by congruence. reflexivity.
  - intros Hcr. eexists. split.
    + apply (load_run _ (FS c fm3 ds) c1); [exact Hp|].
      rewrite (abspath_cwd _ f) by reflexivity. exact Hc1.
    + simpl. unfold c1. rewrite (read_back _ Hcr). reflexivity.
Qed.

(** The body and the metadata [process] returns: the text after the
    first blank line, and what [process_meta] makes of the text before
    it. *)
Lemma process_inv (input final markdown : string)
    (meta : list (string * string)) :
  Processor.process input = Ok (final, markdown, meta) ->
  exists meta_raw Meta',
    Processor.split_raw input = Ok (meta_raw, markdown) /\
    Processor.process_meta meta_raw (MLines <$> md_Meta input)
    = Ok (Meta', meta).
Proof.
  unfold Processor.process, Processor.process_pre, Processor.preprocessors.
  cbn [fold_left]. unfold mbind, result_bind.
  destruct (Processor.split_raw input) as [[meta_raw md]|]; [|discriminate].
  cbn [rbind].
  destruct (Processor.process_meta _ _) as [[Meta' meta']|] eqn:Em;
    [|discriminate].
  cbn [rbind].
  destruct (Processor.process_post _) as [html|]; [|discriminate].
  cbn [rbind].
  destruct (Processor.generate_contents_table _ _) as [fin|]; [|discriminate].
  cbn [rbind]. intros [= _ <- <-]. eauto.
Qed.

(** X11. Rendering the text [save] wrote for a page with metadata
    gives the body back: when the content is the header lines of a
    non-empty mapping, an empty line and a text, and the header holds no
    blank line, a [render] that ends normally sets [body] to that text,
    and leaves the content, the history and the file system alone. *)
Theorem render_keeps_body (pg pg' : Page.t) (meta : list (string * string))
    (text : string) (f f' : fs) :
  Page.content pg = Some (Page.header meta ++ LF ++ text) ->
  meta <> [] ->
  contains (LF ++ LF) (Page.header meta) = false ->
  Page.render (pg, f) = (Ok tt, (pg', f')) ->
  Page.body pg' = Some text /\ Page.content pg' = Page.content pg /\
  Page.history pg' = Page.history pg /\ f' = f.
Proof.
  intros Hc Hm Hb. unfold Page.render.
  erewrite bind_Ok by reflexivity. cbn [fst]. rewrite Hc.
  unfold mbind, M_bind, lift_result.
  destruct (Processor.process _) as [[[html body] meta']|e] eqn:Ep;
    [|discriminate].
  apply process_inv in Ep as (meta_raw & Meta' & Hs & _).
  rewrite (split_saved meta text Hm Hb) in Hs. injection Hs as _ <-.
  unfold gets, put_state. intros [= <- <-]. simpl. auto.
Qed.

(** X12. [save] for a page whose body was never set, as [get_bare]
    makes it: the header lines and an empty line are written to the
    content file, then the missing attribute is asked for; the history
    is not touched. *)
Theorem save_without_body (pg : Page.t) (user : string) (update : bool)
    (d k : Z) (f : fs) :
  let p := Page.path pg in
  Page.body pg = None ->
  fst (Os.exists_ (OsPath.dirname p) f) = Ok true ->
  is_ok (fst (Os.check_writable p f)) = true ->
  Page.save user update d k (pg, f)
  = (Raise (AttributeError "body"),
     (pg, FS (cwd f)
             (<[Os.abspath f p :=
                  Os.line_ends (Page.header (Page._meta pg) ++ LF)]> (files f))
             (dirs f))).
Proof.
  intros p Hbody Hdir Hwp.
  assert (Hex : Os.exists_ (OsPath.dirname (Page.path pg)) f = (Ok true, f)).
  { unfold Os.exists_ in *. simpl in Hdir. injection Hdir as Hdir.
    fold p. rewrite Hdir. reflexivity. }
  destruct f as [c fm ds]. set (f := FS c fm ds) in *.
  unfold Page.save.
  erewrite bind_Ok by reflexivity.
  erewrite bind_Ok by (apply on_snd_run, Hex).
  cbn [negb]. erewrite bind_Ok by reflexivity.
  cbn [fst]. rewrite Hbody.
  erewrite bind_Ok by (apply on_snd_run, (write_file_run _ _ f Hwp fm)).
  reflexivity.
Qed.

End SaveMore.

Lemma save_then_load_witness :
  exists h' f',
    Page.save (fl := nt) (ext := Sample.externals) "ann" false 10 100
      (titled_page "one line", nt_fs)
    = (Ok tt, (Page.set_history h' (titled_page "one line"), f')) /\
    files f' !! "\wiki\new.md"
    = Some ("title: New" ++ CR ++ LF ++ CR ++ LF ++ "one line") /\
    exists pg',
      Page.load (fl := nt) (Page.set_history h' (titled_page "one line"), f')
      = (Ok tt, (pg', f')) /\
      Page.content pg' = Some ("title: New" ++ LF ++ LF ++ "one line").
Proof.
  destruct (save_then_load (fl := nt) (ext := Sample.externals)
              (titled_page "one line") "ann" "one line" 10 100 nt_fs)
    as (h' & f' & Hs & _ & _ & Hc & _ & _ & Hl);
    try (vm_compute; first [reflexivity|discriminate]).
  exists h', f'. split; [exact Hs|]. split; [exact Hc|].
  apply Hl. vm_compute. reflexivity.
Defined.

Lemma render_keeps_body_witness :
  match Page.render (ext := Sample.externals) (loaded_page, nt_fs)
  with
  | (Ok _, (pg', _)) => Page.body pg' = Some "Hello, world."
  | (Raise _, _) => False
  end.
Proof.
  destruct (Page.render (ext := Sample.externals)
              (loaded_page, nt_fs)) as [[[]|e] [pg' f']] eqn:E.
  - apply (render_keeps_body (ext := Sample.externals)
             loaded_page pg' [("title", "Hello")] "Hello, world." nt_fs f');
      [reflexivity|discriminate|reflexivity|exact E].
  - assert (Hok : is_ok (fst (Page.render (ext := Sample.externals)
                                (loaded_page, nt_fs))) = true)
      by (vm_compute; reflexivity).
    rewrite E in Hok. discriminate Hok.
Defined.

Lemma save_without_body_witness :
  let r := Page.save (fl := nt) (ext := Sample.externals) "ann" true 10 100
             (loaded_page, nt_fs) in
  fst r = Raise (AttributeError "body") /\
  files (snd (snd r)) !! "\wiki\hello.md" = Some (CR ++ LF).
Proof.
  intros r. subst r.
  rewrite (save_without_body (fl := nt) (ext := Sample.externals) loaded_page)
    by (vm_compute; reflexivity).
  split; reflexivity.
Defined.

(** ** A history that is not there yet *)

Section NewHistory.

Context {fl : Flavour} {ext : Externals}.







End NewHistory.



(** ** [move]: the guard and the renaming *)

Section MoveMore.

Context {fl : Flavour}.

Import OsPath.

Lemma mkdir_not_runtime (k : string) (f : fs) :
  is_runtime (fst (Os.mkdir k f)) = false.
Proof.
  unfold Os.mkdir.
  destruct (_ || _); [reflexivity|].
  destruct (Os.is_dir f (dirname k)); [reflexivity|].
  destruct (Os.is_file f (dirname k)); reflexivity.
Qed.

Lemma mkdir_missing_not_runtime (l : list string) (f : fs) :
  is_runtime (fst (Os.mkdir_missing l f)) = false.
Proof.
  revert f. induction l as [|k l IH]; intros f; [reflexivity|].
  destruct l as [|k' l]; [apply mkdir_not_runtime|].
  change (Os.mkdir_missing (k :: k' :: l))
    with ((fun f => if Os.is_file f k || Os.is_dir f k then (Ok tt, f)
                    else Os.mkdir k f)
          ≫= fun _ => Os.mkdir_missing (k' :: l)).
  unfold mbind, M_bind.
  destruct (Os.is_file f k || Os.is_dir f k).
  - apply IH.
  - pose proof (mkdir_not_runtime k f) as Hk.
    destruct (Os.mkdir k f) as [[[]|e] f1]; [apply IH|exact Hk].
Qed.

Lemma makedirs_not_runtime (p : string) (f : fs) :
  is_runtime (fst (Os.makedirs p f)) = false.
Proof.
  unfold Os.makedirs. destruct (p =? ""); [reflexivity|].
  unfold mbind, M_bind, get_state.
  destruct (_ =? sep_str); [reflexivity|]. apply mkdir_missing_not_runtime.
Qed.

Lemma rename_not_runtime (src dst : string) (f : fs) :
  is_runtime (fst (Os.rename src dst f)) = false.
Proof.
  unfold Os.rename. destruct (files f !! _); [|reflexivity].
  destruct (_ || _); [reflexivity|].
  destruct (Os.is_dir f _); [reflexivity|].
  destruct (Os.is_dir f _); [reflexivity|].
  destruct (Os.is_file f _); reflexivity.
Qed.

(** X15. [move] raises [RuntimeError] exactly when the normalized root
    is not a prefix, as a text, of the normalized target; it then leaves
    the file system as it is.  No other failure of [move] is a
    [RuntimeError]. *)
Theorem move_refuses_exactly (w : Wiki.t) (url newurl : string) (f : fs) :
  let inside :=
    startswith (normpath (Wiki.root w))
               (normpath (join (Wiki.root w) newurl ++ ".md")) in
  is_runtime (fst (Wiki.move w url newurl f)) = negb inside /\
  (inside = false -> snd (Wiki.move w url newurl f) = f).
Proof.
  intros inside. destruct inside eqn:Hin; subst inside.
  - split; [|discriminate]. unfold Wiki.move.
    rewrite commonprefix_length, Hin. cbn [negb].
    unfold mbind, M_bind. unfold Os.exists_ at 1.
    match goal with
    | |- context [if negb ?b then _ else _] => destruct b
    end; cbn [negb].
    + apply rename_not_runtime.
    + match goal with
      | |- context [Os.makedirs ?p f] =>
          pose proof (makedirs_not_runtime p f) as Hm;
          destruct (Os.makedirs p f) as [[[]|e] f1]
      end; [apply rename_not_runtime|exact Hm].
  - rewrite (move_guard w url newurl f Hin). split; [reflexivity|auto].
Qed.



End MoveMore.

Lemma move_refuses_exactly_witness :
  snd (Wiki.move (fl := posix) (Wiki.Make "/wiki") "hello" "../etc/passwd"
         posix_fs)
  = posix_fs.
Proof.
  apply (proj2 (move_refuses_exactly (fl := posix) (Wiki.Make "/wiki") "hello"
                  "../etc/passwd" posix_fs)).
  reflexivity.
Defined.


(** ** The index and the tags *)

Section Sorting.

Context {A : Type} (key : A -> string).

Lemma insert_by_perm (x : A) (l : list A) : insert_by key x l ≡ₚ x :: l.
Proof.
  induction l as [|y l IH]; simpl; [reflexivity|].
  destruct (String.leb (key x) (key y)); [reflexivity|].
  rewrite IH. apply Permutation_swap.
Qed.

Lemma sorted_by_perm (l : list A) : sorted_by key l ≡ₚ l.
Proof.
  induction l as [|x l IH]; simpl; [reflexivity|].
  rewrite insert_by_perm, IH. reflexivity.
Qed.

Lemma key_le_trans (a b c : A) : key_le key a b -> key_le key b c -> key_le key a c.
Proof.
  unfold key_le. rewrite !leb_not_Gt. apply string_compare_trans.
Qed.

Lemma insert_by_sorted (x : A) (l : list A) :
  StronglySorted (key_le key) l -> StronglySorted (key_le key) (insert_by key x l).
Proof.
  induction 1 as [|y l Hs IH Hy]; simpl.
  - repeat constructor.
  - destruct (String.leb (key x) (key y)) eqn:E.
    + constructor; [constructor; assumption|].
      constructor; [exact E|].
      eapply Forall_impl; [exact Hy|]. intros z Hz.
      exact (key_le_trans x y z E Hz).
    + constructor; [exact IH|].
      rewrite insert_by_perm. constructor; [|exact Hy].
      unfold key_le. destruct (String.leb_total (key x) (key y)); congruence.
Qed.

Lemma sorted_by_sorted (l : list A) : StronglySorted (key_le key) (sorted_by key l).
Proof.
  induction l as [|x l IH]; simpl; [constructor|].
  apply insert_by_sorted, IH.
Qed.

(** The sort is stable: a sorted list is left as it is. *)
Lemma sorted_by_fixed (l : list A) :
  StronglySorted (key_le key) l -> sorted_by key l = l.
Proof.
  induction 1 as [|x l Hs IH Hx]; simpl; [reflexivity|].
  rewrite IH. destruct Hx as [|y l Hy _]; simpl; [reflexivity|].
  unfold key_le in Hy. rewrite Hy. reflexivity.
Qed.

Lemma filter_sorted (P : A -> Prop) `{forall x, Decision (P x)} (l : list A) :
  StronglySorted (key_le key) l -> StronglySorted (key_le key) (filter P l).
Proof.
  induction 1 as [|x l Hs IH Hx]; [constructor|].
  rewrite filter_cons. destruct (decide (P x)); [|exact IH].
  constructor; [exact IH|]. apply Forall_forall.
  intros y [_ Hy]%list_elem_of_filter. revert y Hy. apply Forall_forall, Hx.
Qed.

End Sorting.

Section IndexMore.

Context {fl : Flavour} {ext : Externals}.

Lemma index_inv (w : Wiki.t) (f : fs) (pages : list Page.t) (f' : fs) :
  Wiki.index w f = (Ok pages, f') ->
  exists found, pages = sorted_by (fun x => lower (Page.title x)) found.
Proof.
  unfold Wiki.index, mbind, M_bind, get_state.
  match goal with
  | |- context [Wiki.construct ?l f] =>
      destruct (Wiki.construct l f) as [[found|e] f1]
  end; [|discriminate].
  intros [= <- _]. eauto.
Qed.

(** X17. The pages of the index come in the order of their titles,
    letter case ignored. *)
Theorem index_sorted_by_title (w : Wiki.t) (f : fs) (pages : list Page.t)
    (f' : fs) :
  Wiki.index w f = (Ok pages, f') -> StronglySorted by_title pages.
Proof.
  intros [found ->]%index_inv.
  apply (sorted_by_sorted (fun x => lower (Page.title x))).
Qed.

(** X18. [index_by_tag] returns the pages of the index whose tags hold
    the tag as a part of their text, in the order of the index: its own
    sort changes nothing. *)
Theorem index_by_tag_filters (w : Wiki.t) (tag : string) (f : fs)
    (pages : list Page.t) (f' : fs) :
  Wiki.index w f = (Ok pages, f') ->
  Wiki.index_by_tag w tag f
  = (Ok (filter (fun page => Is_true (contains tag (Page.tags page))) pages), f').
Proof.
  intros Hi. unfold Wiki.index_by_tag.
  erewrite bind_Ok by exact Hi. unfold mret, M_ret. f_equal. f_equal.
  apply sorted_by_fixed, filter_sorted.
  destruct (index_inv _ _ _ _ Hi) as [found ->].
  apply sorted_by_sorted.
Qed.

Lemma omap_all_None {X Y} (g : X -> option Y) (l : list X) :
  (forall x, x ∈ l -> g x = None) -> omap g l = [].
Proof.
  induction l as [|x l IH]; intros Hl; [reflexivity|].
  simpl. rewrite (Hl x) by left. apply IH. intros y Hy. apply Hl. right. exact Hy.
Qed.

(** X19. With no file below the root the index is empty, and nothing
    is read or written. *)
Theorem index_of_empty_root (w : Wiki.t) (f : fs) :
  let root := Os.abspath f (Wiki.root w) in
  let top := if root =? OsPath.sep_str then root else root ++ OsPath.sep_str in
  (forall k, is_Some (files f !! k) -> startswith top k = false) ->
  Wiki.index w f = (Ok [], f).
Proof.
  intros root top Hnone. unfold Wiki.index, mbind, M_bind, get_state.
  fold root. unfold Wiki.walk_md. fold top.
  rewrite (omap_all_None _ (map_to_list (files f))).
  - reflexivity.
  - intros [k v] Hkv. apply elem_of_map_to_list in Hkv. simpl.
    rewrite Hnone by eauto. reflexivity.
Qed.

Lemma page_init_fields (p url : string) (new : bool) (f : fs) (pg : Page.t)
    (f1 : fs) :
  Page.init p url new f = (Ok pg, f1) -> Page.path pg = p /\ Page.url pg = url.
Proof.
  unfold Page.init, mbind, M_bind.
  destruct (History.init (Page.history_path p url) url f) as [[h|e] f2];
    [|discriminate].
  destruct new; [intros [= <- _]; auto|].
  unfold Page.load, Page.render, mbind, M_bind, gets, on_snd, put_state,
    lift_result, raise. simpl.
  destruct (Os.read_file p f2) as [[text|e] f3]; [|discriminate]. simpl.
  destruct (Processor.process text) as [[[html body] meta]|e]; [|discriminate].
  simpl. intros [= <- _]. auto.
Qed.

Lemma construct_fields (l : list (string * string)) (f : fs)
    (pages : list Page.t) (f' : fs) :
  Wiki.construct l f = (Ok pages, f') ->
  (fun pg => (Page.path pg, Page.url pg)) <$> pages = l.
Proof.
  revert f pages f'. induction l as [|[p u] l IH]; intros f pages f'.
  - simpl. intros [= <- _]. reflexivity.
  - simpl. unfold mbind, M_bind.
    destruct (Page.init p u false f) as [[pg|e] f1] eqn:E1; [|discriminate].
    destruct (Wiki.construct l f1) as [[ps|e] f2] eqn:E2; [|discriminate].
    intros [= <- _]. destruct (page_init_fields _ _ _ _ _ _ E1) as [Hp Hu].
    rewrite fmap_cons, Hp, Hu, (IH _ _ _ E2). reflexivity.
Qed.

(** X20. Every page of the index was made for a content file met
    below the root whose name ends with [.md]: its path is the folder
    joined with the name, and its url is the clean form of the folder's
    path below the root joined with the name without [.md]; [clean_url]
    leaves that url as it is. *)
Theorem index_pages_of_files (w : Wiki.t) (f : fs) (pages : list Page.t)
    (f' : fs) :
  Wiki.index w f = (Ok pages, f') ->
  let root := Os.abspath f (Wiki.root w) in
  forall pg, pg ∈ pages ->
    clean_url (Page.url pg) = Page.url pg /\
    exists dir name,
      (dir, name) ∈ Wiki.walk_md root f /\
      Wiki.endswith_md name = true /\
      Page.path pg = OsPath.join dir name /\
      Page.url pg
      = clean_url (OsPath.join (drop (String.length root + 1) dir)
                               (take (String.length name - 3) name)).
Proof.
  intros Hi root. unfold Wiki.index, mbind, M_bind, get_state in Hi.
  fold root in Hi.
  match type of Hi with
  | context [Wiki.construct ?l f] =>
      destruct (Wiki.construct l f) as [[found|e] f1] eqn:Ec
  end; [|discriminate].
  injection Hi as <- _. intros pg Hpg. rewrite sorted_by_perm in Hpg.
  apply construct_fields in Ec.
  assert (Hin : (Page.path pg, Page.url pg)
                ∈ (fun pg => (Page.path pg, Page.url pg)) <$> found).
  { apply list_elem_of_fmap. eauto. }
  rewrite Ec in Hin. apply list_elem_of_omap in Hin as ([dir name] & Hw & Hsome).
  destruct (Wiki.endswith_md name) eqn:Hmd; [|discriminate].
  injection Hsome as Hp Hu. split.
  - rewrite <- Hu. apply cleaned_fixed, clean_url_cleaned.
  - exists dir, name. auto.
Qed.

(** *** [get_tags] *)

Lemma nonempty_snoc {X} (l : list X) (x : X) :
  nonempty (l ++ [x])%list = Some (l ++ [x])%list.
Proof. destruct l; reflexivity. Qed.

Lemma add_tag_spec (page : Page.t) (m : gmap string (list Page.t))
    (L : string -> list Page.t) (part : string) :
  (forall t, m !! t = nonempty (L t)) ->
  forall t, Wiki.add_tag page m part !! t
            = nonempty (L t ++ if decide (strip part = t /\ t <> "")
                               then [page] else [])%list.
Proof.
  intros Hm t. unfold Wiki.add_tag.
  destruct (String.eqb_spec (strip part) "") as [E|E].
  - rewrite decide_False by (intros [<- Hne]; contradiction).
    rewrite app_nil_r. apply Hm.
  - destruct (decide (strip part = t /\ t <> "")) as [[<- _]|Hn].
    + rewrite nonempty_snoc. rewrite (Hm (strip part)).
      destruct (L (strip part)) as [|p l]; simpl; apply lookup_insert_eq.
    + rewrite app_nil_r, <- Hm.
      assert (Hne : strip part <> t).
      { intros <-. apply Hn. split; [reflexivity|exact E]. }
      destruct (m !! strip part) as [[|p l]|]; apply lookup_insert_ne, Hne.
Qed.

Lemma tags_of_page_spec (page : Page.t) (parts : list string)
    (m : gmap string (list Page.t)) (L : string -> list Page.t) :
  (forall t, m !! t = nonempty (L t)) ->
  forall t, fold_left (Wiki.add_tag page) parts m !! t
            = nonempty (L t ++ flat_map (fun part =>
                                  if decide (strip part = t /\ t <> "")
                                  then [page] else []) parts)%list.
Proof.
  revert m L. induction parts as [|part parts IH]; intros m L Hm t.
  - simpl. rewrite app_nil_r. apply Hm.
  - simpl fold_left.
    rewrite (IH _ _ (add_tag_spec page m L part Hm) t).
    simpl flat_map. rewrite <- app_assoc. reflexivity.
Qed.

Lemma get_tags_loop (pages : list Page.t) (m : gmap string (list Page.t))
    (L : string -> list Page.t) :
  (forall t, m !! t = nonempty (L t)) ->
  forall t, fold_left Wiki.tags_of_page pages m !! t
            = nonempty (L t ++ tagged t pages)%list.
Proof.
  revert m L. induction pages as [|page pages IH]; intros m L Hm t.
  - simpl. unfold tagged. simpl. rewrite app_nil_r. apply Hm.
  - simpl fold_left. unfold Wiki.tags_of_page at 2.
    rewrite (IH _ _ (tags_of_page_spec page _ m L Hm) t).
    unfold tagged. simpl flat_map. rewrite <- app_assoc. reflexivity.
Qed.

Lemma elem_of_listed (tag : string) (page x : Page.t) :
  x ∈ listed tag page <->
  x = page /\ tag <> "" /\ tag ∈ strip <$> split "," (Page.tags page).
Proof.
  unfold listed. rewrite list_elem_of_In, in_flat_map. split.
  - intros (part & Hp & Hx).
    destruct (decide (strip part = tag /\ tag <> "")) as [[<- Hne]|];
      [|contradiction].
    destruct Hx as [<-|[]]. split; [reflexivity|]. split; [exact Hne|].
    apply list_elem_of_fmap. exists part. split; [reflexivity|].
    apply list_elem_of_In, Hp.
  - intros (-> & Hne & (part & -> & Hp)%list_elem_of_fmap).
    exists part. split; [apply list_elem_of_In, Hp|].
    rewrite decide_True by auto. left. reflexivity.
Qed.

(** X21. [get_tags] binds every tag to the pages of the index that
    carry it, in the order of the index, a page once for every time it
    carries the tag; a tag is a comma-separated part of a page's tags,
    stripped, and the empty text is no tag.  No tag is bound to an empty
    list. *)
Theorem get_tags_lists (w : Wiki.t) (f : fs) (pages : list Page.t) (f' : fs) :
  Wiki.index w f = (Ok pages, f') ->
  exists tags,
    Wiki.get_tags w f = (Ok tags, f') /\
    (forall tag, tags !! tag = nonempty (tagged tag pages)) /\
    tags !! "" = None /\
    (forall tag page,
       (exists l, tags !! tag = Some l /\ page ∈ l) <->
       tag <> "" /\ page ∈ pages /\
       tag ∈ strip <$> split "," (Page.tags page)).
Proof.
  intros Hi. eexists. split.
  { unfold Wiki.get_tags. erewrite bind_Ok by exact Hi. reflexivity. }
  assert (Hall : forall tag,
            fold_left Wiki.tags_of_page pages ∅ !! tag
            = nonempty (tagged tag pages)).
  { intros tag.
    apply (get_tags_loop pages ∅ (fun _ => [])). intros t. apply lookup_empty. }
  assert (Hin : forall tag page,
            page ∈ tagged tag pages <->
            tag <> "" /\ page ∈ pages /\
            tag ∈ strip <$> split "," (Page.tags page)).
  { intros tag page. unfold tagged.
    rewrite list_elem_of_In, in_flat_map. split.
    - intros (p & Hp & (-> & Hne & Ht)%list_elem_of_In%elem_of_listed).
      split; [exact Hne|]. split; [apply list_elem_of_In, Hp|exact Ht].
    - intros (Hne & Hp & Ht). exists page.
      split; [apply list_elem_of_In, Hp|].
      apply list_elem_of_In, elem_of_listed. auto. }
  split; [exact Hall|]. split.
  - rewrite Hall.
    replace (tagged "" pages) with (@nil Page.t); [reflexivity|].
    symmetry. destruct (tagged "" pages) as [|p l] eqn:E; [reflexivity|].
    assert (Hp : p ∈ tagged "" pages) by (rewrite E; left).
    apply Hin in Hp as [Hne _]. contradiction.
  - intros tag page. rewrite Hall, <- Hin. split.
    + intros (l & Hl & Hp). destruct (tagged tag pages); [discriminate|].
      injection Hl as <-. exact Hp.
    + intros Hp. exists (tagged tag pages). split; [|exact Hp].
      destruct (tagged tag pages); [inversion Hp|reflexivity].
Qed.

End IndexMore.

Lemma index_sorted_by_title_witness :
  match Wiki.index (fl := nt) (ext := Sample.externals) wiki nt_fs_tagged with
  | (Ok pages, _) => StronglySorted by_title pages
  | (Raise _, _) => False
  end.
Proof.
  destruct (Wiki.index (fl := nt) (ext := Sample.externals) wiki nt_fs_tagged)
    as [[pages|e] f'] eqn:E.
  - exact (index_sorted_by_title (fl := nt) (ext := Sample.externals) _ _ _ _ E).
  - assert (Hok : is_ok (fst (Wiki.index (fl := nt) (ext := Sample.externals)
                                wiki nt_fs_tagged)) = true)
      by (vm_compute; reflexivity).
    rewrite E in Hok. discriminate Hok.
Defined.

Lemma index_by_tag_filters_witness :
  match Wiki.index (fl := nt) (ext := Sample.externals) wiki nt_fs_tagged with
  | (Ok pages, f') =>
      Wiki.index_by_tag (fl := nt) (ext := Sample.externals) wiki "x"
        nt_fs_tagged
      = (Ok (filter (fun page => Is_true (contains "x" (Page.tags page))) pages),
         f')
  | (Raise _, _) => False
  end.
Proof.
  destruct (Wiki.index (fl := nt) (ext := Sample.externals) wiki nt_fs_tagged)
    as [[pages|e] f'] eqn:E.
  - exact (index_by_tag_filters (fl := nt) (ext := Sample.externals)
             _ "x" _ _ _ E).
  - assert (Hok : is_ok (fst (Wiki.index (fl := nt) (ext := Sample.externals)
                                wiki nt_fs_tagged)) = true)
      by (vm_compute; reflexivity).
    rewrite E in Hok. discriminate Hok.
Defined.

Lemma index_of_empty_root_witness :
  Wiki.index (fl := nt) (ext := Sample.externals) wiki nt_fs_empty
  = (Ok [], nt_fs_empty).
Proof.
  apply (index_of_empty_root (fl := nt) (ext := Sample.externals)).
  intros k [v Hv]. simpl in Hv. rewrite lookup_empty in Hv. discriminate Hv.
Defined.

Lemma index_pages_of_files_witness :
  match Wiki.index (fl := nt) (ext := Sample.externals) wiki nt_fs_tagged with
  | (Ok pages, _) =>
      forall pg, pg ∈ pages -> clean_url (Page.url pg) = Page.url pg
  | (Raise _, _) => False
  end.
Proof.
  destruct (Wiki.index (fl := nt) (ext := Sample.externals) wiki nt_fs_tagged)
    as [[pages|e] f'] eqn:E.
  - intros pg Hpg.
    exact (proj1 (index_pages_of_files (fl := nt) (ext := Sample.externals)
                    _ _ _ _ E pg Hpg)).
  - assert (Hok : is_ok (fst (Wiki.index (fl := nt) (ext := Sample.externals)
                                wiki nt_fs_tagged)) = true)
      by (vm_compute; reflexivity).
    rewrite E in Hok. discriminate Hok.
Defined.

Lemma get_tags_lists_witness :
  match Wiki.index (fl := nt) (ext := Sample.externals) wiki nt_fs_tagged with
  | (Ok pages, f') =>
      exists tags,
        Wiki.get_tags (fl := nt) (ext := Sample.externals) wiki nt_fs_tagged
        = (Ok tags, f') /\
        tags !! "x" = nonempty (tagged "x" pages) /\ tags !! "" = None
  | (Raise _, _) => False
  end.
Proof.
  destruct (Wiki.index (fl := nt) (ext := Sample.externals) wiki nt_fs_tagged)
    as [[pages|e] f'] eqn:E.
  - destruct (get_tags_lists (fl := nt) (ext := Sample.externals) _ _ _ _ E)
      as (tags & Hg & Hall & Hempty & _).
    exists tags. split; [exact Hg|]. split; [apply Hall|exact Hempty].
  - assert (Hok : is_ok (fst (Wiki.index (fl := nt) (ext := Sample.externals)
                                wiki nt_fs_tagged)) = true)
      by (vm_compute; reflexivity).
    rewrite E in Hok. discriminate Hok.
Defined.

(** The two pages tagged [x] are both listed under it, in the order of
    their titles. *)
Example get_tags_sample :
  match fst (Wiki.get_tags (fl := nt) (ext := Sample.externals) wiki
               nt_fs_tagged) with
  | Ok tags => (map Page.url <$> (tags !! "x"), size tags) = (Some ["a"; "b"], 1)
  | Raise _ => False
  end.
Proof. vm_compute. reflexivity. Qed.


(** ** [clean_url] and letter case *)

Section CaseMore.

Ltac ascii_cases c := destruct c as [[] [] [] [] [] [] [] []]; reflexivity.

Lemma space_lower (c : ascii) : Ascii.eqb (lower_char c) " " = Ascii.eqb c " ".
Proof. ascii_cases c. Qed.

Lemma startswith_space_lower (s : string) :
  startswith " " (lower s) = startswith " " s.
Proof.
  destruct s as [|c s]; [reflexivity|]. simpl lower.
  rewrite !startswith_cons, !startswith_nil, !andb_true_r.
  pose proof (space_lower c) as H.
  destruct (Ascii.eqb_spec (lower_char c) " ") as [E1|E1];
    destruct (Ascii.eqb_spec c " ") as [E2|E2]; try discriminate H.
  - rewrite !bool_decide_eq_true_2 by congruence. reflexivity.
  - rewrite !bool_decide_eq_false_2 by congruence. reflexivity.
Qed.

Lemma sub_space_runs_lower (s : string) :
  sub_space_runs (lower s) = lower (sub_space_runs s) /\
  in_run (lower s) = lower (in_run s).
Proof.
  induction s as [|c s [IH1 IH2]]; [split; reflexivity|].
  simpl lower. simpl sub_space_runs. simpl in_run.
  rewrite space_lower, startswith_space_lower. split.
  - destruct (Ascii.eqb c " " && startswith " " s); [exact IH2|].
    simpl. rewrite IH1. reflexivity.
  - destruct (Ascii.eqb c " "); [exact IH2|]. simpl. rewrite IH1. reflexivity.
Qed.

Lemma lstrip_lower (s : string) : lstrip (lower s) = lower (lstrip s).
Proof.
  induction s as [|c s IH]; [reflexivity|]. simpl.
  rewrite is_space_lower. destruct (is_space c); [exact IH|reflexivity].
Qed.

Lemma rstrip_lower (s : string) : rstrip (lower s) = lower (rstrip s).
Proof.
  induction s as [|c s IH]; [reflexivity|]. simpl. rewrite IH.
  destruct (rstrip s); simpl; [|reflexivity].
  rewrite is_space_lower. destruct (is_space c); reflexivity.
Qed.

Lemma lower_lower (s : string) : lower (lower s) = lower s.
Proof. apply lower_id, lower_lowered. Qed.

(** X22. [clean_url] does not tell letter cases apart: a url and its
    lower-case form are cleaned to the same text. *)
Theorem clean_url_ignores_case (s : string) :
  clean_url (lower s) = clean_url s.
Proof.
  unfold clean_url, strip.
  rewrite (proj1 (sub_space_runs_lower s)), lstrip_lower, rstrip_lower.
  rewrite lower_lower. reflexivity.
Qed.

End CaseMore.

(** ** [index_by] in general *)

Section IndexByMore.

Context {fl : Flavour} {ext : Externals}.

Lemma dict_set_keys {V} (k : Page.attr) (v : V) (d : list (Page.attr * V)) :
  map fst (dict_set k v d)
  = if bool_decide (k ∈ map fst d) then map fst d else (map fst d ++ [k])%list.
Proof.
  induction d as [|[k0 v0] d IH]; simpl.
  - reflexivity.
  - destruct (decide (k0 = k)) as [->|E0]; simpl.
    + rewrite bool_decide_eq_true_2 by left. reflexivity.
    + rewrite IH.
      destruct (bool_decide (k ∈ map fst d)) eqn:Hd.
      * apply bool_decide_eq_true in Hd.
        rewrite bool_decide_eq_true_2 by (right; exact Hd). reflexivity.
      * apply bool_decide_eq_false in Hd.
        rewrite bool_decide_eq_false_2; [reflexivity|].
        intros [->|H]%elem_of_cons; [congruence|contradiction].
Qed.

Lemma dict_get_None {V} (k : Page.attr) (d : list (Page.attr * V)) :
  dict_get k d = None <-> k ∉ map fst d.
Proof.
  induction d as [|[k0 v0] d IH]; simpl.
  - split; [intros _ H; inversion H|reflexivity].
  - destruct (decide (k0 = k)) as [->|E0].
    + split; [discriminate|]. intros H. exfalso. apply H. left.
    + rewrite IH. split.
      * intros H [->|H']%elem_of_cons; [congruence|contradiction].
      * intros H H'. apply H. right. exact H'.
Qed.

(** The loop of [index_by] ends normally only when the pages give
    values that differ from one another, and then it has stored them in
    the order of the pages. *)
Lemma group_pages_keys (key : string) (pages : list Page.t)
    (d0 d : list (Page.attr * pyval)) :
  (forall v x, dict_get v d0 = Some x -> x = PNone) ->
  rfold (Wiki.group_page key) d0 pages = Ok d ->
  exists values,
    Forall2 (fun page v => Page.getattr page key = Ok v) pages values /\
    map fst d = (map fst d0 ++ values)%list /\
    (NoDup (map fst d0) -> NoDup (map fst d)).
Proof.
  revert d0. induction pages as [|page pages IH]; intros d0 Hd0.
  - simpl. intros [= <-]. exists []. rewrite app_nil_r. repeat split; auto.
  - rewrite rfold_cons.
    destruct (Wiki.group_page key d0 page) as [d1|e] eqn:E; [|discriminate].
    simpl. intros Hrest.
    assert (Hd1 : forall v x, dict_get v d1 = Some x -> x = PNone).
    { apply (group_pages_None key [page] d0 d1 Hd0).
      rewrite rfold_cons, E. reflexivity. }
    destruct (IH d1 Hd1 Hrest) as (values & Hv & Hk & Hnd).
    unfold Wiki.group_page in E.
    destruct (Page.getattr page key) as [value|] eqn:Eg; [|discriminate].
    simpl in E.
    destruct (dict_get value d0) as [x|] eqn:Ed.
    { rewrite (Hd0 _ _ Ed) in E. discriminate. }
    simpl in E. injection E as <-.
    apply dict_get_None in Ed.
    rewrite dict_set_keys, bool_decide_eq_false_2 in Hk, Hnd by exact Ed.
    exists (value :: values). split; [constructor; auto|].
    split.
    + rewrite Hk, <- app_assoc. reflexivity.
    + intros Hn. apply Hnd. apply NoDup_app. split; [exact Hn|].
      split; [|apply NoDup_singleton].
      intros x Hx [->|H]%elem_of_cons; [contradiction|inversion H].
Qed.

(** X23. [index_by] ends normally only when the pages of the index
    give values for the key that differ from one another; it then holds
    these values as keys, in the order of the index, and binds every one
    of them to [None]. *)
Theorem index_by_distinct (w : Wiki.t) (key : string) (f : fs)
    (d : list (Page.attr * pyval)) (f' : fs) :
  Wiki.index_by w key f = (Ok d, f') ->
  exists pages,
    Wiki.index w f = (Ok pages, f') /\
    Forall2 (fun page v => Page.getattr page key = Ok v) pages (map fst d) /\
    NoDup (map fst d) /\
    Forall (fun kv => snd kv = PNone) d.
Proof.
  unfold Wiki.index_by, mbind, M_bind, lift_result.
  destruct (Wiki.index w f) as [[pages|e] f1]; [|discriminate].
  destruct (rfold (Wiki.group_page key) [] pages) as [d1|e] eqn:E;
    [|discriminate].
  intros [= <- <-]. exists pages. split; [reflexivity|].
  assert (H0 : forall v x, dict_get v (@nil (Page.attr * pyval)) = Some x ->
                           x = PNone) by discriminate.
  destruct (group_pages_keys key pages [] d1 H0 E) as (values & Hv & Hk & Hnd).
  simpl in Hk. rewrite Hk. split; [exact Hv|]. split.
  - rewrite <- Hk. apply Hnd. constructor.
  - pose proof (group_pages_None key pages [] d1 H0 E) as Hn.
    assert (Hnd1 : NoDup (map fst d1)) by (apply Hnd; constructor).
    clear - Hn Hnd1. induction d1 as [|[k x] d1 IH]; [constructor|].
    simpl in Hnd1. apply NoDup_cons in Hnd1 as [Hk Hnd1].
    constructor.
    + simpl. apply (Hn k). simpl. rewrite decide_True by reflexivity. reflexivity.
    + apply IH; [|exact Hnd1]. intros v y Hy. apply (Hn v). simpl.
      destruct (decide (k = v)) as [->|]; [|exact Hy].
      exfalso. apply (proj2 (dict_get_None v d1)) in Hk. congruence.
Qed.

End IndexByMore.

Lemma index_by_distinct_witness :
  match Wiki.index_by (fl := nt) (ext := Sample.externals) wiki "title" nt_fs
  with
  | (Ok d, _) => NoDup (map fst d) /\ Forall (fun kv => snd kv = PNone) d
  | (Raise _, _) => False
  end.
Proof.
  destruct (Wiki.index_by (fl := nt) (ext := Sample.externals) wiki "title"
              nt_fs) as [[d|e] f'] eqn:E.
  - destruct (index_by_distinct (fl := nt) (ext := Sample.externals)
                _ _ _ _ _ E) as (pages & _ & _ & Hnd & Hnone).
    split; assumption.
  - assert (Hok : is_ok (fst (Wiki.index_by (fl := nt)
                                (ext := Sample.externals) wiki "title" nt_fs))
                  = true) by (vm_compute; reflexivity).
    rewrite E in Hok. discriminate Hok.
Defined.



(** ** [wikilink] and the escapes of a replacement *)

Section Templates.

Lemma parse_template_plain (ngroups : nat) (s : string) :
  plain s = true -> forall skip, is_ok (parse_template ngroups skip s) = true.
Proof.
  unfold plain. induction s as [|c s IH]; intros Hs skip.
  - destruct skip; reflexivity.
  - simpl in Hs. apply andb_true_iff in Hs as [Hc Hs].
    destruct skip as [|k]; simpl; [|apply IH, Hs].
    unfold is_not in Hc. rewrite Hc.
    specialize (IH Hs 0).
    destruct (parse_template ngroups 0 s); [reflexivity|discriminate].
Qed.

Lemma sub1_plain (r : regex) (ngroups : nat) (repl text : string) :
  plain repl = true -> is_ok (sub1 r ngroups repl text) = true.
Proof.
  intros Hr. unfold sub1.
  pose proof (parse_template_plain ngroups repl Hr 0) as Hp.
  destruct (parse_template ngroups 0 repl); [|discriminate]. simpl.
  destruct (search text r 0) as [[b st]|]; reflexivity.
Qed.

Lemma plain_take (n : nat) (s : string) : plain s = true -> plain (take n s) = true.
Proof.
  unfold plain. revert s. induction n as [|n IH]; intros [|c s]; simpl; auto.
  intros [Hc Hs]%andb_true_iff. rewrite Hc. simpl. auto.
Qed.

Lemma plain_drop (n : nat) (s : string) : plain s = true -> plain (drop n s) = true.
Proof.
  unfold plain. revert s. induction n as [|n IH]; intros [|c s]; simpl; auto.
  intros [Hc Hs]%andb_true_iff. auto.
Qed.

Variable text : string.
Hypothesis Htext : plain text = true.

Lemma first_some_In {X Y} (g : X -> option Y) (l : list X) (y : Y) :
  first_some g l = Some y -> exists x, In x l /\ g x = Some y.
Proof.
  induction l as [|x l IH]; simpl; [discriminate|].
  destruct (g x) eqn:E.
  - intros [= <-]. eauto.
  - intros H. destruct (IH H) as (x' & Hx & Hg). eauto.
Qed.

Lemma exec_plain (r : regex) :
  forall st k res,
    plain_caps st ->
    (forall st' res', plain_caps st' -> k st' = Some res' -> plain_caps res') ->
    exec text r st k = Some res -> plain_caps res.
Proof.
  induction r as [s|p|lazy min p|r1 IH1 r2 IH2|r IH|n r IH|s];
    intros st k res Hst Hk; simpl.
  - destruct (startswith s _); [|discriminate]. apply Hk. exact Hst.
  - destruct (drop (pos st) text) as [|c t]; [discriminate|].
    destruct (p c); [|discriminate]. apply Hk. exact Hst.
  - intros H. apply first_some_In in H as (j & _ & Hj).
    revert Hj. apply Hk. exact Hst.
  - apply IH1; [exact Hst|]. intros st' res' Hst'. apply IH2; assumption.
  - destruct (exec text r st k) eqn:E.
    + intros [= <-]. revert E. apply IH; assumption.
    + apply Hk. exact Hst.
  - apply IH; [exact Hst|]. intros st' res' Hst'. apply Hk.
    constructor; [|exact Hst']. simpl. unfold slice.
    apply plain_take, plain_drop, Htext.
  - destruct (_ && _); [discriminate|]. apply Hk. exact Hst.
Qed.

Lemma group_of_plain (l : list (nat * string)) (n : nat) :
  Forall (fun p => plain (snd p) = true) l -> plain (group_of l n) = true.
Proof.
  induction 1 as [|[k s] l Hs _ IH]; simpl; [reflexivity|].
  destruct (Nat.eqb k n); assumption.
Qed.

Lemma finditer_go_plain (r : regex) (fuel i : nat) :
  Forall (fun m => plain_caps (snd m)) (finditer_go text r fuel i).
Proof.
  revert i. induction fuel as [|fuel IH]; intros i; simpl; [constructor|].
  unfold search.
  destruct (i <=? String.length text)%nat; [|constructor].
  destruct (search_from text r (String.length text - i) i) as [[b st]|] eqn:E;
    [|constructor].
  apply search_from_Some in E as [_ Hex].
  constructor; [|apply IH]. simpl.
  apply (exec_plain r (MState b []) Some st); [constructor| |exact Hex].
  intros st' res' Hst' [= <-]. exact Hst'.
Qed.

End Templates.

Section WikilinkTotal.

Lemma plain_app (a b : string) : plain (a ++ b) = plain a && plain b.
Proof. apply str_forall_app. Qed.

Lemma clean_url_plain (s : string) : plain (clean_url s) = true.
Proof.
  destruct (clean_url_cleaned s) as (Hc & _). unfold url_char in Hc.
  rewrite !str_forall_and in Hc.
  apply andb_true_iff in Hc as [_ Hbs]. exact Hbs.
Qed.

(** X24. [wikilink] ends normally on every text without a backslash,
    when the formatter puts none into the address it makes of a clean
    url: the replacement it hands to [re.sub] then holds no escape. *)
Theorem wikilink_plain_text (url_formatter : string -> string -> string)
    (text : string) :
  plain text = true ->
  (forall endpoint url,
     plain url = true -> plain (url_formatter endpoint url) = true) ->
  is_ok (wikilink url_formatter text) = true.
Proof.
  intros Htext Hfmt. unfold wikilink.
  match goal with
  | |- is_ok (rfold ?f text ?l) = true =>
      destruct (rfold_invariant f (fun _ => True) l text I) as (r & -> & _);
        [|reflexivity]
  end.
  intros a [[[g1 g2] g3] g4] Hin _.
  unfold findall_links in Hin. apply in_map_iff in Hin as (m & Hm & Hin).
  pose proof (finditer_go_plain text Htext link_regex (S (String.length text)) 0)
    as Hall.
  rewrite Forall_forall in Hall. specialize (Hall m).
  assert (Hcaps : plain_caps m.2).
  { apply Hall. apply list_elem_of_In. exact Hin. }
  injection Hm as _ H2 _ H4.
  match goal with
  | |- exists a', ?s = Ok a' /\ True =>
      assert (Hok : is_ok s = true); [|destruct s; [eauto|discriminate]]
  end.
  apply sub1_plain. unfold anchor.
  rewrite !plain_app, (Hfmt _ _ (clean_url_plain g2)). simpl.
  rewrite andb_true_r.
  assert (P2 : plain g2 = true) by (rewrite <- H2; apply group_of_plain, Hcaps).
  assert (P4 : plain g4 = true) by (rewrite <- H4; apply group_of_plain, Hcaps).
  destruct (g4 =? ""); assumption.
Qed.

End WikilinkTotal.

(** A backslash in the title of a link is read as an escape of the
    replacement: an unknown one stops [wikilink], a known one is
    replaced. *)
Example wikilink_bad_escape :
  wikilink slash_url "[[a\code]]" = Raise ReError /\
  wikilink slash_url "[[a\new]]" = Ok ("<a href='/a/new'>a" ++ LF ++ "ew</a>").
Proof. vm_compute. split; reflexivity. Qed.

Lemma wikilink_plain_text_witness :
  is_ok (wikilink slash_url "see [[Foo Bar]] and [[a/b | The Name ]]") = true.
Proof.
  apply wikilink_plain_text; [reflexivity|].
  intros endpoint url Hu. unfold slash_url, plain. simpl. exact Hu.
Defined.
